(** * chatplt: the chat relay server and its policies

    A shallow embedding of the socket.io chat server: the helper functions
    ([sanitizeMessage], [sanitizeUsername], [isValidUsername],
    [isValidMessage], [checkMessageRateLimit], [addRecentMessage]), the
    per-connection event handlers, [handleUserDisconnection], the periodic
    cleanup and the two admin endpoints, followed by the properties of the
    specification that were checked against them.

    Conventions.
    - A JavaScript string is the list of its UTF-16 code units ([N]);
      [length] is then the [.length] of the source.
    - [Date.now()] and [new Date()] are millisecond counts ([Z]); every
      handler run reads the clock once and receives that reading as [now].
    - [activeUsers] is a JavaScript [Map] whose iteration order is
      observable (the cleanup loop, [find], the ban loop): it is an
      association list in insertion order.  [userActivity] and
      [bannedUsers] are only looked up, updated and filtered: they are a
      [gmap] and a [gset].
    - What a handler sends is returned as a list of [action]s, oldest
      first, next to the new state. *)

From Stdlib Require Import ZArith NArith Ascii String.
From stdpp Require Import base decidable option list gmap sets strings.
Local Open Scope Z_scope.

(** ** JavaScript strings *)

Abbreviation jsstring := (list N).

Definition js (s : string) : jsstring :=
  List.map N_of_ascii (list_ascii_of_string s).

Definition inRange (lo hi c : N) : bool := ((lo <=? c) && (c <=? hi))%N.

Definition isUpperAZ (c : N) : bool := inRange 65 90 c.
Definition isLowerAZ (c : N) : bool := inRange 97 122 c.
Definition isDigit (c : N) : bool := inRange 48 57 c.

(** [\s] of a regular expression, and the characters [trim] strips:
    WhiteSpace and LineTerminator of ECMAScript. *)
Definition isWhiteSpace (c : N) : bool :=
  inRange 9 13 c || (c =? 32)%N || (c =? 160)%N || (c =? 5760)%N
  || inRange 8192 8202 c || (c =? 8232)%N || (c =? 8233)%N
  || (c =? 8239)%N || (c =? 8287)%N || (c =? 12288)%N || (c =? 65279)%N.

(** [\w] without the [u] flag. *)
Definition isWordChar (c : N) : bool :=
  isUpperAZ c || isLowerAZ c || isDigit c || (c =? 95)%N.

(** Canonicalize of a code unit under the [i] flag (no [u] flag): the
    upper-case form, except that a non-ASCII unit never folds onto an ASCII
    one.  Every literal of the patterns below is ASCII, so comparing
    canonical forms only ever needs the ASCII letters. *)
Definition canonicalize (c : N) : N :=
  if isLowerAZ c then (c - 32)%N else c.

(** [String.prototype.trim]. *)
Fixpoint trimStart (s : jsstring) : jsstring :=
  match s with
  | c :: s' => if isWhiteSpace c then trimStart s' else s
  | [] => []
  end.

Definition trimEnd (s : jsstring) : jsstring := rev (trimStart (rev s)).

Definition trim (s : jsstring) : jsstring := trimEnd (trimStart s).

(** ** Regular expressions

    The three patterns of the server are kept as syntax and run by a
    backtracking matcher in continuation-passing style, the way the
    ECMAScript specification defines matching: a matcher receives the
    code unit before the current position (for [\b] and [^]), the rest of
    the input and the continuation to try on what it leaves; it answers
    with the input left after the whole match, or [None]. *)

Inductive regex : Type :=
| Eps
| Chr (p : N -> bool)
| Cat (r1 r2 : regex)
| Star (r : regex)
| NotAhead (r : regex)
| WordB
| Bol
| Eol.

Definition cont : Type := option N -> jsstring -> option jsstring.
Definition matcher : Type := option N -> jsstring -> cont -> option jsstring.

Definition isWordAt (c : option N) : bool :=
  match c with Some x => isWordChar x | None => false end.

(** Greedy [r*]: one more round of [m] first, the continuation otherwise;
    a round that consumes nothing fails, as RepeatMatcher has it.  Every
    round consumes, so [length s] rounds are all there can be; the lemmas
    on the loop below hold for any larger [fuel] as well. *)
Fixpoint star_loop (m : matcher) (fuel : nat) (prev : option N) (s : jsstring)
    (k : cont) : option jsstring :=
  match fuel with
  | O => k prev s
  | S fuel' =>
      match m prev s (fun p' s' =>
                        if decide (length s' < length s)%nat
                        then star_loop m fuel' p' s' k else None) with
      | Some out => Some out
      | None => k prev s
      end
  end.

Fixpoint rmatch (r : regex) : matcher :=
  match r with
  | Eps => fun prev s k => k prev s
  | Chr p => fun prev s k =>
      match s with
      | c :: s' => if p c then k (Some c) s' else None
      | [] => None
      end
  | Cat r1 r2 => fun prev s k =>
      rmatch r1 prev s (fun p' s' => rmatch r2 p' s' k)
  | Star r1 => fun prev s k => star_loop (rmatch r1) (length s) prev s k
  | NotAhead r1 => fun prev s k =>
      match rmatch r1 prev s (fun _ s' => Some s') with
      | Some _ => None
      | None => k prev s
      end
  | WordB => fun prev s k =>
      if xorb (isWordAt prev) (isWordAt (head s)) then k prev s else None
  | Bol => fun prev s k =>
      match prev with None => k prev s | Some _ => None end
  | Eol => fun prev s k =>
      match s with [] => k prev s | _ :: _ => None end
  end.

(** The match that starts at the current position: what is left after it. *)
Definition exec (r : regex) (prev : option N) (s : jsstring) : option jsstring :=
  rmatch r prev s (fun _ s' => Some s').

(** [s.replace(r, '')] for a pattern with the [g] flag.  [skip] counts the
    code units of the current match still to drop; an empty match removes
    nothing and the search moves on by one. *)
Fixpoint removeAllFrom (r : regex) (skip : nat) (prev : option N)
    (s : jsstring) : jsstring :=
  match s with
  | [] => []
  | c :: s' =>
      match skip with
      | S n => removeAllFrom r n (Some c) s'
      | O =>
          match exec r prev s with
          | Some rest =>
              match (length s - length rest)%nat with
              | S n => removeAllFrom r n (Some c) s'
              | O => c :: removeAllFrom r 0 (Some c) s'
              end
          | None => c :: removeAllFrom r 0 (Some c) s'
          end
      end
  end.

Definition removeAll (r : regex) (s : jsstring) : jsstring :=
  removeAllFrom r 0 None s.

(** [r.test(s)] for a pattern without the [g] flag: a match at some start. *)
Fixpoint testFrom (r : regex) (prev : option N) (s : jsstring) : bool :=
  match exec r prev s with
  | Some _ => true
  | None =>
      match s with
      | [] => false
      | c :: s' => testFrom r (Some c) s'
      end
  end.

Definition test (r : regex) (s : jsstring) : bool := testFrom r None s.

(** A literal under the [i] flag. *)
Definition chrI (c : N) : regex :=
  Chr (fun x => (canonicalize x =? canonicalize c)%N).

Fixpoint litI (l : jsstring) : regex :=
  match l with
  | [] => Eps
  | c :: l' => Cat (chrI c) (litI l')
  end.

Definition isAngle (c : N) : bool := (c =? 60)%N || (c =? 62)%N.
Definition isLt (c : N) : bool := (c =? 60)%N.
Definition notLt (c : N) : bool := negb (c =? 60)%N.

Definition scriptOpen : jsstring := js "<script".
Definition scriptClose : jsstring := js "</script>".

(** One round of the inner group of the pattern of [sanitizeMessage]:
    not at the literal </script>, then one <, then any run without <. *)
Definition scriptRound : regex :=
  Cat (NotAhead (litI scriptClose)) (Cat (Chr isLt) (Star (Chr notLt))).

(** The pattern of [sanitizeMessage], flags [g] and [i], piece by piece:
    the literal <script, a word boundary, any run without <, as many
    rounds of the group as possible, and last the literal </script>. *)
Definition scriptBlock : regex :=
  Cat (litI scriptOpen)
   (Cat WordB
     (Cat (Star (Chr notLt))
       (Cat (Star scriptRound) (litI scriptClose)))).

(** [/[<>]/g] *)
Definition angleBracket : regex := Chr isAngle.

(** The class [[a-zA-Z0-9\s_-]] and the pattern [/^[a-zA-Z0-9\s_-]+$/]. *)
Definition isUsernameChar (c : N) : bool :=
  isLowerAZ c || isUpperAZ c || isDigit c || isWhiteSpace c
  || (c =? 95)%N || (c =? 45)%N.

Definition usernamePattern : regex :=
  Cat Bol (Cat (Chr isUsernameChar) (Cat (Star (Chr isUsernameChar)) Eol)).

(** ** Helper functions of the server *)

Definition sanitizeMessage (message : jsstring) : jsstring :=
  trim (removeAll angleBracket (removeAll scriptBlock message)).

Definition sanitizeUsername (username : jsstring) : jsstring :=
  trim (removeAll angleBracket username).

Definition isValidMessage (message : jsstring) : bool :=
  negb (bool_decide (message = []))
  && (1 <=? length message)%nat && (length message <=? 500)%nat.

(** ** State of the server *)

(** [socket.id]. *)
Abbreviation sid := string.

Inductive userStatus : Type := idle | active.

(** A value of [activeUsers]; [status] is absent until the client reports. *)
Record user : Type := mkUser {
  username : jsstring;
  joinTime : Z;
  lastSeen : Z;
  socketId : sid;
  status : option userStatus
}.

(** A value of [userActivity]. *)
Record activity : Type := mkActivity {
  messageCount : Z;
  lastMessage : Z
}.

(** An element of [recentMessages], also the payload of a 'message' event. *)
Record messageData : Type := mkMessageData {
  msg_username : jsstring;
  msg_message : jsstring;
  msg_timestamp : Z;
  msg_socketId : sid
}.

Record state : Type := mkState {
  activeUsers : list (sid * user);
  recentMessages : list messageData;
  bannedUsers : gset jsstring;
  userActivity : gmap jsstring activity;
  (** [io.sockets.sockets]: the sockets whose transport is open *)
  sockets : gset sid;
  (** the members of the room 'main-chat' *)
  mainChat : gset sid
}.

Definition initialState : state :=
  mkState [] [] ∅ ∅ ∅ ∅.

Definition MAX_RECENT_MESSAGES : nat := 50.
Definition MESSAGE_RATE_LIMIT : Z := 10.
Definition MESSAGE_WINDOW : Z := 60 * 1000.

(** *** [Map] operations on [activeUsers], keeping insertion order *)

Fixpoint mapGet {V : Type} (k : sid) (m : list (sid * V)) : option V :=
  match m with
  | [] => None
  | (k', v) :: m' => if decide (k' = k) then Some v else mapGet k m'
  end.

(** [set] on a present key keeps its place, on a new key appends. *)
Fixpoint mapSet {V : Type} (k : sid) (v : V) (m : list (sid * V)) : list (sid * V) :=
  match m with
  | [] => [(k, v)]
  | (k', v') :: m' =>
      if decide (k' = k) then (k, v) :: m' else (k', v') :: mapSet k v m'
  end.

Fixpoint mapDelete {V : Type} (k : sid) (m : list (sid * V)) : list (sid * V) :=
  match m with
  | [] => []
  | (k', v') :: m' =>
      if decide (k' = k) then mapDelete k m' else (k', v') :: mapDelete k m'
  end.

(** The keys of [activeUsers], in iteration order. *)
Definition keys {V : Type} (m : list (sid * V)) : list sid := List.map fst m.

(** *** What the server sends *)

Inductive payload : Type :=
| OnlineCount (n : nat)
| ErrorMsg (message : string)
| UserJoined (name : jsstring) (onlineCount : nat) (timestamp : Z)
| UserLeft (name : jsstring) (onlineCount : nat) (timestamp : Z)
| MessageOut (m : messageData)
| UserTyping (name : jsstring) (typing : bool).

(** [socket.emit], [io.to('main-chat').emit] and
    [socket.to('main-chat').emit] (the room without that socket). *)
Inductive audience : Type :=
| ToSocket (id : sid)
| ToRoom
| ToRoomExcept (id : sid).

Inductive response : Type :=
| Unauthorized401
| UsernameRequired400
| Success200 (name : jsstring).

Inductive action : Type :=
| Emit (to : audience) (p : payload)
| ForceDisconnect (id : sid)
| Respond (r : response).

(** The sockets an emission reaches. *)
Definition recipients (st : state) (a : audience) : gset sid :=
  match a with
  | ToSocket id => {[ id ]}
  | ToRoom => mainChat st
  | ToRoomExcept id => mainChat st ∖ {[ id ]}
  end.

Definition errInvalidUsername : string :=
  "Invalid username. Use 1-20 characters, letters, numbers, spaces, hyphens, and underscores only.".
Definition errUsernameTaken : string :=
  "Username is already taken. Please choose a different one.".
Definition errJoinFailed : string :=
  "An error occurred while joining the chat.".
Definition errMustJoin : string := "You must join the chat first.".
Definition errInvalidMessage : string :=
  "Invalid message. Must be 1-500 characters.".
Definition errTooFast : string :=
  "You are sending messages too quickly. Please slow down.".
Definition errMessageFailed : string :=
  "An error occurred while sending the message.".
Definition errBanned : string := "You have been banned from the chat.".

Definition set_activeUsers (au : list (sid * user)) (st : state) : state :=
  mkState au (recentMessages st) (bannedUsers st) (userActivity st)
          (sockets st) (mainChat st).
Definition set_recentMessages (rm : list messageData) (st : state) : state :=
  mkState (activeUsers st) rm (bannedUsers st) (userActivity st)
          (sockets st) (mainChat st).
Definition set_bannedUsers (b : gset jsstring) (st : state) : state :=
  mkState (activeUsers st) (recentMessages st) b (userActivity st)
          (sockets st) (mainChat st).
Definition set_userActivity (ua : gmap jsstring activity) (st : state) : state :=
  mkState (activeUsers st) (recentMessages st) (bannedUsers st) ua
          (sockets st) (mainChat st).
Definition set_sockets (so : gset sid) (st : state) : state :=
  mkState (activeUsers st) (recentMessages st) (bannedUsers st)
          (userActivity st) so (mainChat st).
Definition set_mainChat (mc : gset sid) (st : state) : state :=
  mkState (activeUsers st) (recentMessages st) (bannedUsers st)
          (userActivity st) (sockets st) mc.

(** *** The helpers that read or write the state *)

Definition checkMessageRateLimit (now : Z) (name : jsstring)
    (ua : gmap jsstring activity) : bool * gmap jsstring activity :=
  match ua !! name with
  | None => (true, <[name := mkActivity 1 now]> ua)
  | Some a =>
      if MESSAGE_WINDOW <? now - lastMessage a
      then (true, <[name := mkActivity 1 now]> ua)
      else if messageCount a <? MESSAGE_RATE_LIMIT
      then (true, <[name := mkActivity (messageCount a + 1) now]> ua)
      else (false, ua)
  end.

Definition addRecentMessage (m : messageData) (rm : list messageData)
    : list messageData :=
  let pushed := rm ++ [m] in
  if (MAX_RECENT_MESSAGES <? length pushed)%nat then tail pushed else pushed.

(** [toLowerCase] on strings of ASCII code units; the concrete runs at
    the end of the file use it as the host's function. *)
Definition asciiLower (s : jsstring) : jsstring :=
  List.map (fun c => if isUpperAZ c then (c + 32)%N else c) s.

(** What the server takes from its host: [String.prototype.toLowerCase]
    and [process.env.ADMIN_KEY] (absent when the variable is not set).
    The server only compares and stores lower-cased strings, so the
    function is left abstract. *)
Class Host : Type := mkHost {
  toLowerCase : jsstring -> jsstring;
  ADMIN_KEY : option jsstring
}.

Section Server.

Context {host : Host}.

Definition isValidUsername (banned : gset jsstring) (name : jsstring) : bool :=
  negb (bool_decide (name = []))
  && (1 <=? length name)%nat
  && (length name <=? 20)%nat
  && test usernamePattern name
  && negb (bool_decide (toLowerCase name ∈ banned)).

(** *** The 'connection' event and the handlers it installs

    The argument of 'join' and the [message] field of the argument of
    'message' are [None] when the client sent something that is not a
    string: the first method call on it throws and the handler's [catch]
    answers. *)

Definition onConnection (id : sid) (st : state) : state * list action :=
  (set_sockets ({[ id ]} ∪ sockets st) st,
   [Emit (ToSocket id) (OnlineCount (length (activeUsers st)))]).

(** [Array.from(activeUsers.values()).find(...)] of the join handler. *)
Definition existingUser (name : jsstring) (au : list (sid * user))
    : option user :=
  List.find
    (fun u => bool_decide (toLowerCase (username u) = toLowerCase name))
    (List.map snd au).

Definition onJoin (id : sid) (now : Z) (arg : option jsstring) (st : state)
    : state * list action :=
  match arg with
  | None => (st, [Emit (ToSocket id) (ErrorMsg errJoinFailed)])
  | Some raw =>
      let sanitizedUsername := sanitizeUsername raw in
      if negb (isValidUsername (bannedUsers st) sanitizedUsername)
      then (st, [Emit (ToSocket id) (ErrorMsg errInvalidUsername)])
      else
        match existingUser sanitizedUsername (activeUsers st) with
        | Some _ => (st, [Emit (ToSocket id) (ErrorMsg errUsernameTaken)])
        | None =>
            let au := mapSet id (mkUser sanitizedUsername now now id None)
                             (activeUsers st) in
            (set_mainChat ({[ id ]} ∪ mainChat st) (set_activeUsers au st),
             Emit ToRoom (UserJoined sanitizedUsername (length au) now)
             :: List.map (fun m => Emit (ToSocket id) (MessageOut m))
                         (recentMessages st))
        end
  end.

Definition onMessage (id : sid) (now : Z) (arg : option jsstring) (st : state)
    : state * list action :=
  match mapGet id (activeUsers st) with
  | None => (st, [Emit (ToSocket id) (ErrorMsg errMustJoin)])
  | Some u =>
      match arg with
      | None => (st, [Emit (ToSocket id) (ErrorMsg errMessageFailed)])
      | Some raw =>
          let sanitizedMessage := sanitizeMessage raw in
          if negb (isValidMessage sanitizedMessage)
          then (st, [Emit (ToSocket id) (ErrorMsg errInvalidMessage)])
          else
            let '(admitted, ua) :=
              checkMessageRateLimit now (username u) (userActivity st) in
            if negb admitted
            then (st, [Emit (ToSocket id) (ErrorMsg errTooFast)])
            else
              let m := mkMessageData (username u) sanitizedMessage now id in
              let u' := mkUser (username u) (joinTime u) now (socketId u)
                               (status u) in
              (set_activeUsers (mapSet id u' (activeUsers st))
                 (set_recentMessages (addRecentMessage m (recentMessages st))
                    (set_userActivity ua st)),
               [Emit ToRoom (MessageOut m)])
      end
  end.

Definition onTyping (id : sid) (typing : bool) (st : state)
    : state * list action :=
  match mapGet id (activeUsers st) with
  | None => (st, [])
  | Some u => (st, [Emit (ToRoomExcept id) (UserTyping (username u) typing)])
  end.

Definition onUserIdle (id : sid) (st : state) : state * list action :=
  match mapGet id (activeUsers st) with
  | None => (st, [])
  | Some u =>
      let u' := mkUser (username u) (joinTime u) (lastSeen u) (socketId u)
                       (Some idle) in
      (set_activeUsers (mapSet id u' (activeUsers st)) st, [])
  end.

Definition onUserActive (id : sid) (now : Z) (st : state)
    : state * list action :=
  match mapGet id (activeUsers st) with
  | None => (st, [])
  | Some u =>
      let u' := mkUser (username u) (joinTime u) now (socketId u)
                       (Some active) in
      (set_activeUsers (mapSet id u' (activeUsers st)) st, [])
  end.

Definition handleUserDisconnection (id : sid) (now : Z) (st : state)
    : state * list action :=
  match mapGet id (activeUsers st) with
  | None => (st, [])
  | Some u =>
      let au := mapDelete id (activeUsers st) in
      let ua :=
        match userActivity st !! username u with
        | Some a =>
            if 5 * 60 * 1000 <? now - lastMessage a
            then delete (username u) (userActivity st)
            else userActivity st
        | None => userActivity st
        end in
      (set_userActivity ua (set_activeUsers au st),
       [Emit (ToRoomExcept id) (UserLeft (username u) (length au) now)])
  end.

Definition onLeave (id : sid) (now : Z) (st : state) : state * list action :=
  handleUserDisconnection id now st.

(** The transport closed: socket.io has taken the socket out of
    [io.sockets.sockets] and of its rooms when the handler runs. *)
Definition onDisconnect (id : sid) (now : Z) (st : state)
    : state * list action :=
  handleUserDisconnection id now
    (set_mainChat (mainChat st ∖ {[ id ]})
       (set_sockets (sockets st ∖ {[ id ]}) st)).

(** *** Periodic cleanup *)

Definition inactiveThreshold : Z := 30 * 60 * 1000.

(** The [for ... of activeUsers.entries()] loop: [todo] is what the
    iterator still has to visit, [au] the map as the deletions so far
    left it. *)
Fixpoint cleanupUsers (now : Z) (todo : list (sid * user))
    (au : list (sid * user)) : list (sid * user) * list action :=
  match todo with
  | [] => (au, [])
  | (id, u) :: rest =>
      if inactiveThreshold <? now - lastSeen u
      then
        let au' := mapDelete id au in
        let '(au'', acts) := cleanupUsers now rest au' in
        (au'', Emit ToRoom (UserLeft (username u) (length au') now) :: acts)
      else cleanupUsers now rest au
  end.

Definition cleanupActivity (now : Z) (ua : gmap jsstring activity)
    : gmap jsstring activity :=
  filter (fun e => ¬ (60 * 60 * 1000 < now - lastMessage e.2)) ua.

Definition cleanup (now : Z) (st : state) : state * list action :=
  let '(au, acts) := cleanupUsers now (activeUsers st) (activeUsers st) in
  (set_userActivity (cleanupActivity now (userActivity st))
     (set_activeUsers au st),
   acts).

(** *** Admin endpoints

    [username] and [adminKey] of the request body, [None] when absent. *)

Definition missing (name : option jsstring) : bool :=
  match name with
  | None | Some [] => true
  | Some (_ :: _) => false
  end.

(** [socket.disconnect(true)] closes the transport at once, and socket.io
    runs the socket's 'disconnect' listeners before the call returns: the
    ban request itself runs [handleUserDisconnection] for the banned
    connection, before it answers. *)
Definition adminBan (now : Z) (name adminKey : option jsstring) (st : state)
    : state * list action :=
  if negb (bool_decide (adminKey = ADMIN_KEY))
  then (st, [Respond Unauthorized401])
  else
    match name with
    | None | Some [] => (st, [Respond UsernameRequired400])
    | Some n =>
        let st' := set_bannedUsers ({[ toLowerCase n ]} ∪ bannedUsers st) st in
        let '(st'', kick) :=
          match List.find
                  (fun e => bool_decide (toLowerCase (username e.2)
                                         = toLowerCase n))
                  (activeUsers st) with
          | Some (id, _) =>
              if decide (id ∈ sockets st)
              then
                let '(st2, sent) := onDisconnect id now st' in
                (st2,
                 Emit (ToSocket id) (ErrorMsg errBanned)
                 :: ForceDisconnect id :: sent)
              else (st', [])
          | None => (st', [])
          end in
        (st'', kick ++ [Respond (Success200 n)])
    end.

Definition adminUnban (name adminKey : option jsstring) (st : state)
    : state * list action :=
  if negb (bool_decide (adminKey = ADMIN_KEY))
  then (st, [Respond Unauthorized401])
  else
    match name with
    | None | Some [] => (st, [Respond UsernameRequired400])
    | Some n =>
        (set_bannedUsers (bannedUsers st ∖ {[ toLowerCase n ]}) st,
         [Respond (Success200 n)])
    end.

(** *** The server as a transition system *)

Inductive event : Type :=
| Connection (id : sid)
| Join (id : sid) (arg : option jsstring)
| Message (id : sid) (arg : option jsstring)
| Typing (id : sid) (typing : bool)
| UserIdle (id : sid)
| UserActive (id : sid)
| Leave (id : sid)
| Disconnect (id : sid)
| Cleanup
| AdminBan (name adminKey : option jsstring)
| AdminUnban (name adminKey : option jsstring).

Definition step (now : Z) (e : event) (st : state) : state * list action :=
  match e with
  | Connection id => onConnection id st
  | Join id arg => onJoin id now arg st
  | Message id arg => onMessage id now arg st
  | Typing id t => onTyping id t st
  | UserIdle id => onUserIdle id st
  | UserActive id => onUserActive id now st
  | Leave id => onLeave id now st
  | Disconnect id => onDisconnect id now st
  | Cleanup => cleanup now st
  | AdminBan n k => adminBan now n k st
  | AdminUnban n k => adminUnban n k st
  end.

(** Runs a list of timed events, collecting what was sent. *)
Fixpoint run (evs : list (Z * event)) (st : state) : state * list action :=
  match evs with
  | [] => (st, [])
  | (now, e) :: evs' =>
      let '(st1, a1) := step now e st in
      let '(st2, a2) := run evs' st1 in
      (st2, a1 ++ a2)
  end.

Inductive reachable : state -> Prop :=
| reachable_init : reachable initialState
| reachable_step now e st :
    reachable st -> reachable (step now e st).1.

(** The lower-cased user names of the registry, in iteration order. *)
Definition lowerNames (au : list (sid * user)) : list jsstring :=
  List.map (fun e => toLowerCase (username e.2)) au.

(** One entry per socket, and no two entries whose names agree up to
    case. *)
Definition registryOk (au : list (sid * user)) : Prop :=
  NoDup (keys au) /\ NoDup (lowerNames au).

(** The two events that end a session: the explicit 'leave' and the
    transport's 'disconnect'. *)
Definition closes (id : sid) (e : event) : Prop :=
  e = Leave id \/ e = Disconnect id.

(** An entry the cleanup removes. *)
Definition stale (now : Z) (u : user) : bool :=
  inactiveThreshold <? now - lastSeen u.


End Server.

(** *** The browser client's input checks

    [startChat] and [sendMessage] of the client read a text field, check
    it and emit an event.  The two functions below give the argument of
    the emitted event, [None] when the client returns without emitting;
    the changes to the page are left out.  [hasSocket] says whether the
    client's [socket] variable is set. *)

Definition startChat (input : jsstring) : option jsstring :=
  let username := trim input in
  if bool_decide (username = []) then None
  else if (20 <? length username)%nat then None
  else Some username.

Definition sendMessage (input : jsstring) (hasSocket : bool)
    : option jsstring :=
  let message := trim input in
  if bool_decide (message = []) || negb hasSocket then None
  else if (500 <? length message)%nat then None
  else Some message.

(** ** Definitions used to state the properties *)

(** Calls a limiter once per clock reading, for one user name. *)
Fixpoint limiterRun
    (limit : Z -> jsstring -> gmap jsstring activity
             -> bool * gmap jsstring activity)
    (times : list Z) (name : jsstring) (ua : gmap jsstring activity)
    : list bool * gmap jsstring activity :=
  match times with
  | [] => ([], ua)
  | now :: rest =>
      let '(ok, ua1) := limit now name ua in
      let '(oks, ua2) := limiterRun limit rest name ua1 in
      (ok :: oks, ua2)
  end.

(** The limiter as the specification words it: the timestamp of an entry
    is the start of its window and stays where it is while the window is
    open.  It is compared with [checkMessageRateLimit], never used by the
    server model. *)
Definition fixedWindowLimit (now : Z) (name : jsstring)
    (ua : gmap jsstring activity) : bool * gmap jsstring activity :=
  match ua !! name with
  | None => (true, <[name := mkActivity 1 now]> ua)
  | Some a =>
      if MESSAGE_WINDOW <? now - lastMessage a
      then (true, <[name := mkActivity 1 now]> ua)
      else if messageCount a <? MESSAGE_RATE_LIMIT
      then (true, <[name := mkActivity (messageCount a + 1) (lastMessage a)]> ua)
      else (false, ua)
  end.

(** Appends the messages of [ms] to the buffer, oldest first. *)
Definition insertAll (ms rm : list messageData) : list messageData :=
  fold_left (fun acc m => addRecentMessage m acc) ms rm.

(** The characters the specification allows in a user name: letters,
    digits, underscore, hyphen and the space character.  It is compared
    with [isUsernameChar], never used by the server model. *)
Definition isSpecUsernameChar (c : N) : bool :=
  isUpperAZ c || isLowerAZ c || isDigit c
  || (c =? 95)%N || (c =? 45)%N || (c =? 32)%N.


(** A string with no white space at either end. *)
Definition trimmed (s : jsstring) : Prop :=
  (forall c s', s = c :: s' -> isWhiteSpace c = false)
  /\ (forall c s', s = s' ++ [c] -> isWhiteSpace c = false).


(** *** A direct reading of the script pattern

    The functions below say without backtracking what the pattern of
    [sanitizeMessage] matches; they are proved equal to the matcher's
    answer, and the server model does not use them. *)

Fixpoint dropWhile (p : N -> bool) (s : jsstring) : jsstring :=
  match s with
  | c :: s' => if p c then dropWhile p s' else s
  | [] => []
  end.

(** Removes a prefix that equals [pat] up to case. *)
Fixpoint stripPrefixI (pat s : jsstring) : option jsstring :=
  match pat with
  | [] => Some s
  | p :: pat' =>
      match s with
      | c :: s' =>
          if (canonicalize c =? canonicalize p)%N
          then stripPrefixI pat' s' else None
      | [] => None
      end
  end.

(** The code unit before the position reached after [n] more units. *)
Fixpoint prevAfter (n : nat) (prev : option N) (s : jsstring) : option N :=
  match n, s with
  | S n', c :: s' => prevAfter n' (Some c) s'
  | _, _ => prev
  end.

(** What follows the first closing tag at or after the current position. *)
Fixpoint closeScan (s : jsstring) : option jsstring :=
  match s with
  | [] => None
  | c :: s' =>
      if isLt c
      then match stripPrefixI scriptClose s with
           | Some rest => Some rest
           | None => closeScan s'
           end
      else closeScan s'
  end.

Definition atLt (s : jsstring) : option jsstring :=
  match s with
  | c :: _ => if isLt c then closeScan s else None
  | [] => None
  end.

(** What follows a script block that starts at the current position. *)
Definition scriptBlockAt (s : jsstring) : option jsstring :=
  match stripPrefixI scriptOpen s with
  | Some r => if isWordAt (head r) then None else closeScan r
  | None => None
  end.

(** Equality up to case, as the [i] flag compares. *)
Definition ciEq (a b : jsstring) : Prop :=
  List.map canonicalize a = List.map canonicalize b.


(** *** A concrete host and a concrete state for the examples *)

(** A host whose strings are ASCII, with the admin key k. *)
Definition asciiHost : Host := mkHost asciiLower (Some (js "k")).

(** The state after two clients connected and joined, at times 0 and
    1000000, as Alice and Bob. *)
Definition twoJoined : state :=
  (run (host := asciiHost)
     [(0, Connection "a"); (0, Join "a" (Some (js "Alice")));
      (1000000, Connection "b"); (1000000, Join "b" (Some (js "Bob")))]
     initialState).1.

(** The shape of a user name that went through [sanitizeUsername] and the
    length and pattern tests of [isValidUsername]. *)
Definition nameShape (name : jsstring) : Prop :=
  (1 <= length name <= 20)%nat
  /\ Forall (fun c => isUsernameChar c = true) name
  /\ trimmed name.

(** The shape of a message text that went through [sanitizeMessage] and
    [isValidMessage]. *)
Definition textShape (text : jsstring) : Prop :=
  (1 <= length text <= 500)%nat
  /\ Forall (fun c => isAngle c = false) text
  /\ trimmed text.

Definition usersShaped (au : list (sid * user)) : Prop :=
  forall id u, In (id, u) au -> nameShape (username u) /\ socketId u = id.

Definition bufferShaped (rm : list messageData) : Prop :=
  forall m, In m rm -> textShape (msg_message m) /\ nameShape (msg_username m).


(** The state [twoJoined] after Alice sent ten messages, one per
    millisecond from 1000001 on. *)
Definition aliceFull : state :=
  (run (host := asciiHost)
     (List.map (fun i => (1000000 + Z.of_nat i, Message "a" (Some (js "hi"))))
               (seq 1 10))
     twoJoined).1.

(** * Properties *)

Section Properties.

Context {host : Host}.

(** ** Rate limiter *)

(** What the limiter does, exactly (C1 describes a window anchored at
    its start instead): per user name, the entry keeps the time of the
    last admitted message.  The first message opens an entry with count 1
    and is admitted; a message that comes more than 60 s after the last
    admitted one resets the entry to count 1 and is admitted; otherwise
    the message is admitted exactly when the count is below 10, the count
    then grows by one and the timestamp moves to now; a rejected message
    changes nothing.  Entries of other names are never touched. *)
Theorem rate_limit_window_of_last_admitted
    (now : Z) (name : jsstring) (ua : gmap jsstring activity) :
  let r := checkMessageRateLimit now name ua in
  (forall other, other <> name -> r.2 !! other = ua !! other) /\
  match ua !! name with
  | None => r.1 = true /\ r.2 !! name = Some (mkActivity 1 now)
  | Some a =>
      if decide (60000 < now - lastMessage a)
      then r.1 = true /\ r.2 !! name = Some (mkActivity 1 now)
      else if decide (messageCount a < 10)
      then r.1 = true /\
           r.2 !! name = Some (mkActivity (messageCount a + 1) now)
      else r.1 = false /\ r.2 = ua
  end.
Proof.
  unfold checkMessageRateLimit, MESSAGE_WINDOW, MESSAGE_RATE_LIMIT.
  destruct (ua !! name) as [a|] eqn:Hl; cbn zeta.
  - destruct (Z.ltb_spec (60 * 1000) (now - lastMessage a)) as [Hw|Hw].
    + rewrite decide_True by lia. cbn.
      split; [intros o Ho; by rewrite lookup_insert_ne|].
      split; [done|apply lookup_insert_eq].
    + rewrite decide_False by lia.
      destruct (Z.ltb_spec (messageCount a) 10) as [Hc|Hc].
      * rewrite decide_True by lia. cbn.
        split; [intros o Ho; by rewrite lookup_insert_ne|].
        split; [done|apply lookup_insert_eq].
      * rewrite decide_False by lia. cbn. done.
  - cbn. split; [intros o Ho; by rewrite lookup_insert_ne|].
    split; [done|apply lookup_insert_eq].
Qed.

(** Within any span of 60 s, starting from an entry that the span's first
    instant does not precede, the limiter admits messages until the count
    reaches 10 and rejects the rest: the timestamp never leaves the span,
    so no reset happens inside it. *)
Lemma window_admits_up_to_ten (name : jsstring) (t0 : Z) (ts : list Z)
    (ua : gmap jsstring activity) (a : activity) :
  ua !! name = Some a -> t0 <= lastMessage a -> 0 <= messageCount a ->
  Forall (fun t => t0 <= t <= t0 + 60000) ts ->
  (limiterRun checkMessageRateLimit ts name ua).1
  = List.map (fun i => messageCount a + Z.of_nat i <? 10) (seq 0 (length ts)).
Proof.
  intros Hl Ht0 Hc Hts. revert ua a Hl Ht0 Hc.
  induction Hts as [|t ts Ht Hts IH]; intros ua a Hl Ht0 Hc; [done|].
  cbn [limiterRun]. unfold checkMessageRateLimit at 1.
  rewrite Hl. unfold MESSAGE_WINDOW, MESSAGE_RATE_LIMIT.
  rewrite (proj2 (Z.ltb_ge _ _)) by lia.
  cbn [length seq List.map]. rewrite Z.add_0_r.
  destruct (Z.ltb_spec (messageCount a) 10) as [Hlt|Hge].
  - specialize (IH (<[name := mkActivity (messageCount a + 1) t]> ua)
                  (mkActivity (messageCount a + 1) t)
                  (lookup_insert_eq _ _ _)).
    cbn in IH. specialize (IH ltac:(lia) ltac:(lia)).
    destruct (limiterRun _ ts name _) as [oks ua2]. cbn in *.
    f_equal. rewrite IH, <- seq_shift, List.map_map.
    apply map_ext. intros i. f_equal. lia.
  - specialize (IH ua a Hl Ht0 Hc).
    destruct (limiterRun _ ts name ua) as [oks ua2]. cbn in *.
    f_equal. rewrite IH, <- seq_shift, List.map_map.
    apply map_ext_in. intros i _.
    rewrite (proj2 (Z.ltb_ge _ _)) by lia.
    rewrite (proj2 (Z.ltb_ge _ _)) by lia. done.
Qed.

(** ** The ban endpoint, by cases *)

(** The state after a ban request: untouched, or with the name added to
    the ban list and, when an open connection held it, with that
    connection's 'disconnect' handler run. *)
Lemma adminBan_state (now : Z) (name key : option jsstring) (st : state) :
  (adminBan now name key st).1 = st
  \/ exists n, n <> [] /\ name = Some n /\ key = ADMIN_KEY
       /\ ((adminBan now name key st).1
            = set_bannedUsers ({[ toLowerCase n ]} ∪ bannedUsers st) st
           \/ exists id,
                (adminBan now name key st).1
                = (onDisconnect id now
                     (set_bannedUsers ({[ toLowerCase n ]} ∪ bannedUsers st)
                        st)).1).
Proof.
  unfold adminBan.
  destruct (bool_decide_reflect (key = ADMIN_KEY)) as [->|]; cbn [negb];
    [|by left].
  destruct name as [[|c n]|]; [by left| |by left].
  right. exists (c :: n). split; [done|]. split; [done|]. split; [done|].
  destruct (List.find _ (activeUsers st)) as [[id u]|]; [|by left].
  destruct (decide (id ∈ sockets st)); [|by left].
  right. exists id. by destruct (onDisconnect id now _).
Qed.

Lemma onDisconnect_recent (id : sid) (now : Z) (st : state) :
  recentMessages (onDisconnect id now st).1 = recentMessages st.
Proof.
  unfold onDisconnect, handleUserDisconnection. cbn.
  by destruct (mapGet id (activeUsers st)).
Qed.

(** ** Recent message buffer *)

Lemma addRecentMessage_drop (m : messageData) (rm : list messageData) :
  (length rm <= 50)%nat ->
  addRecentMessage m rm = drop (length rm + 1 - 50) (rm ++ [m]).
Proof.
  intros Hlen. unfold addRecentMessage, MAX_RECENT_MESSAGES. cbn zeta.
  rewrite length_app. cbn [length].
  destruct (Nat.ltb_spec 50 (length rm + 1)) as [Hgt|Hle].
  - replace (length rm + 1 - 50)%nat with 1%nat by lia.
    by destruct (rm ++ [m]).
  - replace (length rm + 1 - 50)%nat with 0%nat by lia. done.
Qed.

Lemma addRecentMessage_length (m : messageData) (rm : list messageData) :
  (length rm <= 50)%nat -> (length (addRecentMessage m rm) <= 50)%nat.
Proof.
  intros Hlen. rewrite addRecentMessage_drop by done.
  rewrite length_drop, length_app. cbn. lia.
Qed.

Lemma insertAll_drop (ms rm : list messageData) :
  (length rm <= 50)%nat ->
  insertAll ms rm = drop (length rm + length ms - 50) (rm ++ ms).
Proof.
  revert rm. induction ms as [|m ms IH]; intros rm Hlen; cbn.
  - rewrite app_nil_r. replace (length rm + 0 - 50)%nat with 0%nat by lia.
    done.
  - unfold insertAll in IH. rewrite IH by by apply addRecentMessage_length.
    rewrite addRecentMessage_drop by done.
    rewrite length_drop, length_app. cbn [length].
    rewrite (cons_middle m rm ms), app_assoc.
    destruct (decide (length rm + 1 <= 50)%nat) as [Hs|Hs].
    + replace (length rm + 1 - 50)%nat with 0%nat by lia.
      rewrite !drop_0. f_equal. lia.
    + assert (length rm = 50%nat) as Hr by lia. rewrite Hr. cbn.
      destruct rm as [|r rm]; [done|]. cbn.
      rewrite drop_0. f_equal. cbn in Hr. lia.
Qed.

Lemma reachable_recent_bound (st : state) :
  reachable st -> (length (recentMessages st) <= 50)%nat.
Proof.
  induction 1 as [|now e st Hr IH]; [cbn; lia|].
  destruct e as [id|id arg|id arg|id t|id|id|id|id| |n k|n k];
    try (destruct (adminBan_state now n k st)
           as [E|(m & _ & _ & _ & [E|[id E]])];
         cbn; rewrite E; [done|done|by rewrite onDisconnect_recent]);
    cbn; unfold onJoin, onMessage, onTyping, onUserIdle,
    onUserActive, onLeave, onDisconnect, handleUserDisconnection, cleanup,
    adminUnban; cbn; try done;
    repeat (case_match; cbn; try done);
    by apply addRecentMessage_length.
Qed.

(** C5: the buffer is a FIFO of capacity 50.  An insertion appends at the
    tail and drops the head once there are more than 50 elements; from
    the empty buffer, 55 insertions leave exactly the last 50 messages in
    the order they came; and the buffer never holds more than 50, after
    one insertion or in any state the server reaches. *)
Theorem recent_buffer_bounded_fifo :
  (forall m rm,
      addRecentMessage m rm
      = if decide (length rm < 50)%nat then rm ++ [m] else tail (rm ++ [m]))
  /\ (forall ms, length ms = 55%nat ->
        length (insertAll ms []) = 50%nat /\ insertAll ms [] = drop 5 ms)
  /\ (forall ms, insertAll ms [] = drop (length ms - 50) ms)
  /\ (forall m rm, (length rm <= 50)%nat ->
        (length (addRecentMessage m rm) <= 50)%nat)
  /\ (forall st, reachable st -> (length (recentMessages st) <= 50)%nat).
Proof.
  split; [|split; [|split; [|split]]].
  - intros m rm. unfold addRecentMessage, MAX_RECENT_MESSAGES. cbn zeta.
    rewrite length_app. cbn [length].
    destruct (Nat.ltb_spec 50 (length rm + 1));
      [rewrite decide_False by lia|rewrite decide_True by lia]; done.
  - intros ms Hms. rewrite insertAll_drop by (cbn; lia). cbn [length app].
    rewrite Hms. cbn. rewrite length_drop. split; [lia|done].
  - intros ms. rewrite insertAll_drop by (cbn; lia). done.
  - intros m rm. apply addRecentMessage_length.
  - apply reachable_recent_bound.
Qed.

(** ** The registry as an insertion-ordered map *)

Lemma mapGet_mapSet {V : Type} (k k' : sid) (v : V) (m : list (sid * V)) :
  mapGet k (mapSet k' v m) = if decide (k' = k) then Some v else mapGet k m.
Proof.
  induction m as [|[k0 v0] m IH]; cbn.
  - by destruct (decide (k' = k)).
  - destruct (decide (k0 = k')) as [->|Hne]; cbn.
    + by destruct (decide (k' = k)).
    + rewrite IH. destruct (decide (k0 = k)) as [->|?]; [|done].
      by rewrite decide_False.
Qed.

Lemma mapGet_mapDelete {V : Type} (k k' : sid) (m : list (sid * V)) :
  mapGet k (mapDelete k' m) = if decide (k' = k) then None else mapGet k m.
Proof.
  induction m as [|[k0 v0] m IH]; cbn.
  - by destruct (decide (k' = k)).
  - destruct (decide (k0 = k')) as [->|Hne]; cbn.
    + rewrite IH. destruct (decide (k' = k)); done.
    + rewrite IH. destruct (decide (k0 = k)) as [->|?]; [|done].
      by rewrite decide_False.
Qed.

Lemma mapGet_In {V : Type} (k : sid) (v : V) (m : list (sid * V)) :
  mapGet k m = Some v -> In (k, v) m.
Proof.
  induction m as [|[k0 v0] m IH]; cbn; [done|].
  destruct (decide (k0 = k)) as [->|?]; intros H.
  - left. congruence.
  - right. by apply IH.
Qed.

Lemma In_mapGet {V : Type} (k : sid) (v : V) (m : list (sid * V)) :
  NoDup (keys m) -> In (k, v) m -> mapGet k m = Some v.
Proof.
  induction m as [|[k0 v0] m IH]; cbn; [done|].
  intros Hnd [Heq|Hin].
  - inversion Heq; subst. by rewrite decide_True.
  - inversion Hnd as [|? ? Hni Hnd']; subst.
    destruct (decide (k0 = k)) as [->|?]; [|by apply IH].
    exfalso. apply Hni, list_elem_of_In, in_map_iff. by exists (k, v).
Qed.

Lemma mapDelete_filter {V : Type} (k : sid) (m : list (sid * V)) :
  mapDelete k m = List.filter (fun e => negb (bool_decide (e.1 = k))) m.
Proof.
  induction m as [|[k0 v0] m IH]; cbn; [done|].
  destruct (decide (k0 = k)) as [->|Hne].
  - by rewrite bool_decide_eq_true_2.
  - rewrite bool_decide_eq_false_2 by done. cbn. by rewrite IH.
Qed.

Lemma mapDelete_absent {V : Type} (k : sid) (m : list (sid * V)) :
  ~ In k (keys m) -> mapDelete k m = m.
Proof.
  induction m as [|[k0 v0] m IH]; cbn; [done|]. intros Hni.
  destruct (decide (k0 = k)) as [->|Hne]; [tauto|].
  f_equal. apply IH. tauto.
Qed.

Lemma mapDelete_length {V : Type} (k : sid) (v : V) (m : list (sid * V)) :
  NoDup (keys m) -> mapGet k m = Some v ->
  length (mapDelete k m) = (length m - 1)%nat.
Proof.
  induction m as [|[k0 v0] m IH]; cbn; [done|].
  intros Hnd Hget. inversion Hnd as [|? ? Hni Hnd']; subst.
  rewrite list_elem_of_In in Hni.
  destruct (decide (k0 = k)) as [->|Hne].
  - rewrite mapDelete_absent by done. lia.
  - cbn. rewrite IH by done.
    apply mapGet_In in Hget. destruct m; [done|cbn; lia].
Qed.

Lemma In_mapDelete {V : Type} (k : sid) (e : sid * V) (m : list (sid * V)) :
  In e (mapDelete k m) <-> In e m /\ e.1 <> k.
Proof.
  rewrite mapDelete_filter, filter_In.
  rewrite negb_true_iff, bool_decide_eq_false. done.
Qed.

Lemma NoDup_map_mapDelete {V A : Type} (f : sid * V -> A) (k : sid)
    (m : list (sid * V)) :
  NoDup (List.map f m) -> NoDup (List.map f (mapDelete k m)).
Proof.
  induction m as [|[k0 v0] m IH]; cbn; [done|].
  intros Hnd. inversion Hnd as [|? ? Hni Hnd']; subst.
  destruct (decide (k0 = k)) as [->|Hne]; [by apply IH|].
  cbn. constructor; [|by apply IH].
  rewrite list_elem_of_In in *.
  intros Hin. apply Hni. apply in_map_iff in Hin as [e [He Hin]].
  apply in_map_iff. exists e. split; [done|].
  by apply In_mapDelete in Hin as [Hin _].
Qed.

Lemma keys_mapSet_present {V : Type} (k : sid) (v : V) (m : list (sid * V)) :
  In k (keys m) -> keys (mapSet k v m) = keys m.
Proof.
  induction m as [|[k0 v0] m IH]; cbn; [done|].
  intros [->|Hin].
  - by rewrite decide_True.
  - destruct (decide (k0 = k)) as [->|Hne]; [done|]. cbn. f_equal.
    by apply IH.
Qed.

Lemma keys_mapSet_absent {V : Type} (k : sid) (v : V) (m : list (sid * V)) :
  ~ In k (keys m) -> mapSet k v m = m ++ [(k, v)].
Proof.
  induction m as [|[k0 v0] m IH]; cbn; [done|].
  intros Hni. destruct (decide (k0 = k)) as [->|Hne]; [tauto|].
  f_equal. apply IH. tauto.
Qed.

Lemma NoDup_keys_mapSet {V : Type} (k : sid) (v : V) (m : list (sid * V)) :
  NoDup (keys m) -> NoDup (keys (mapSet k v m)).
Proof.
  intros Hnd. destruct (in_dec string_dec k (keys m)) as [Hin|Hni].
  - by rewrite keys_mapSet_present.
  - rewrite keys_mapSet_absent by done. unfold keys in *.
    rewrite map_app. cbn. apply NoDup_app. split; [done|].
    split; [|apply NoDup_singleton].
    intros x Hx Hx'. apply list_elem_of_In in Hx.
    apply list_elem_of_singleton in Hx'. by subst.
Qed.

Lemma mapGet_Some_keys {V : Type} (k : sid) (v : V) (m : list (sid * V)) :
  mapGet k m = Some v -> In k (keys m).
Proof.
  intros H. apply mapGet_In in H. unfold keys. apply in_map_iff.
  by exists (k, v).
Qed.

Lemma mapGet_None_keys {V : Type} (k : sid) (m : list (sid * V)) :
  mapGet k m = None <-> ~ In k (keys m).
Proof.
  induction m as [|[k0 v0] m IH]; cbn; [tauto|].
  destruct (decide (k0 = k)) as [->|Hne]; [split; [done|tauto]|].
  rewrite IH. tauto.
Qed.

(** ** Uniqueness of user names *)

Lemma lowerNames_mapSet_same (k : sid) (u v : user) (m : list (sid * user)) :
  mapGet k m = Some u -> username v = username u ->
  lowerNames (mapSet k v m) = lowerNames m.
Proof.
  intros Hget Hname. induction m as [|[k0 v0] m IH]; cbn in *; [done|].
  destruct (decide (k0 = k)) as [->|Hne]; cbn.
  - inversion Hget; subst. by rewrite Hname.
  - f_equal. by apply IH.
Qed.

Lemma In_lowerNames_mapSet (k : sid) (v : user) (m : list (sid * user))
    (x : jsstring) :
  In x (lowerNames (mapSet k v m)) ->
  In x (lowerNames m) \/ x = toLowerCase (username v).
Proof.
  induction m as [|[k0 v0] m IH]; cbn.
  - intros [<-|[]]. by right.
  - destruct (decide (k0 = k)) as [->|Hne]; cbn.
    + intros [<-|Hin]; [by right|left; by right].
    + intros [<-|Hin]; [left; by left|].
      destruct (IH Hin) as [?|?]; [left; by right|by right].
Qed.

Lemma NoDup_lowerNames_mapSet (k : sid) (v : user) (m : list (sid * user)) :
  NoDup (lowerNames m) ->
  ~ In (toLowerCase (username v)) (lowerNames m) ->
  NoDup (lowerNames (mapSet k v m)).
Proof.
  induction m as [|[k0 v0] m IH]; cbn; intros Hnd Hfresh.
  - apply NoDup_singleton.
  - inversion Hnd as [|? ? Hni Hnd']; subst.
    rewrite list_elem_of_In in Hni.
    destruct (decide (k0 = k)) as [->|Hne]; cbn.
    + constructor; [rewrite list_elem_of_In; tauto|done].
    + constructor; [|apply IH; tauto].
      rewrite list_elem_of_In. intros Hin.
      apply In_lowerNames_mapSet in Hin as [Hin|Heq]; [tauto|].
      apply Hfresh. left. done.
Qed.

Lemma existingUser_None (name : jsstring) (au : list (sid * user)) :
  existingUser name au = None <-> ~ In (toLowerCase name) (lowerNames au).
Proof.
  unfold existingUser, lowerNames.
  induction au as [|[k u] au IH]; cbn; [tauto|].
  destruct (bool_decide_reflect (toLowerCase (username u) = toLowerCase name))
    as [Heq|Hne].
  - split; [done|]. intros H. exfalso. apply H. by left.
  - rewrite IH. tauto.
Qed.

Lemma existingUser_Some (name : jsstring) (au : list (sid * user)) (u : user) :
  existingUser name au = Some u ->
  toLowerCase (username u) = toLowerCase name /\ exists k, In (k, u) au.
Proof.
  unfold existingUser. intros H. apply find_some in H as [Hin Heq].
  apply bool_decide_eq_true in Heq. split; [done|].
  apply in_map_iff in Hin as [[k u'] [Hu Hin]]. cbn in Hu. subst.
  by exists k.
Qed.

Lemma registryOk_mapDelete (k : sid) (au : list (sid * user)) :
  registryOk au -> registryOk (mapDelete k au).
Proof.
  intros [Hk Hn]. split; by apply NoDup_map_mapDelete.
Qed.

Lemma registryOk_update (k : sid) (u v : user) (au : list (sid * user)) :
  mapGet k au = Some u -> username v = username u ->
  registryOk au -> registryOk (mapSet k v au).
Proof.
  intros Hget Hname [Hk Hn]. split.
  - by apply NoDup_keys_mapSet.
  - by rewrite (lowerNames_mapSet_same k u v).
Qed.

(** What the cleanup loop leaves of the map: the keys of the stale entries
    it visited are deleted, in order. *)
Lemma cleanupUsers_fst (now : Z) (todo au : list (sid * user)) :
  (cleanupUsers now todo au).1
  = fold_left (fun a k => mapDelete k a)
      (keys (List.filter (fun e => stale now e.2) todo)) au.
Proof.
  revert au. induction todo as [|[k u] todo IH]; intros au; cbn; [done|].
  unfold stale at 1. cbn.
  destruct (inactiveThreshold <? now - lastSeen u); cbn.
  - specialize (IH (mapDelete k au)).
    destruct (cleanupUsers now todo (mapDelete k au)). cbn in *. done.
  - apply IH.
Qed.

Lemma registryOk_deletes (ks : list sid) (au : list (sid * user)) :
  registryOk au -> registryOk (fold_left (fun a k => mapDelete k a) ks au).
Proof.
  revert au. induction ks as [|k ks IH]; intros au Hok; cbn; [done|].
  by apply IH, registryOk_mapDelete.
Qed.

Lemma handleUserDisconnection_registryOk (id : sid) (now : Z) (st : state) :
  registryOk (activeUsers st) ->
  registryOk (activeUsers (handleUserDisconnection id now st).1).
Proof.
  intros Hok. unfold handleUserDisconnection.
  destruct (mapGet id (activeUsers st)); cbn; [|done].
  by apply registryOk_mapDelete.
Qed.

Lemma step_registryOk (now : Z) (e : event) (st : state) :
  registryOk (activeUsers st) -> registryOk (activeUsers (step now e st).1).
Proof.
  intros Hok. destruct e as [id|id arg|id arg|id t|id|id|id|id| |n k|n k]; cbn.
  - done.
  - unfold onJoin. destruct arg as [raw|]; [|done].
    destruct (isValidUsername _ _); cbn; [|done].
    destruct (existingUser _ _) eqn:Hex; cbn; [done|].
    apply existingUser_None in Hex. destruct Hok as [Hk Hn]. split.
    + by apply NoDup_keys_mapSet.
    + by apply NoDup_lowerNames_mapSet.
  - unfold onMessage. destruct (mapGet id (activeUsers st)) as [u|] eqn:Hget;
      [|done].
    destruct arg as [raw|]; [|done].
    destruct (isValidMessage _); cbn; [|done].
    destruct (checkMessageRateLimit _ _ _) as [[] ua]; cbn; [|done].
    by apply (registryOk_update id u).
  - unfold onTyping. by destruct (mapGet id (activeUsers st)).
  - unfold onUserIdle.
    destruct (mapGet id (activeUsers st)) as [u|] eqn:Hget; [|done].
    cbn. by apply (registryOk_update id u).
  - unfold onUserActive.
    destruct (mapGet id (activeUsers st)) as [u|] eqn:Hget; [|done].
    cbn. by apply (registryOk_update id u).
  - by apply handleUserDisconnection_registryOk.
  - unfold onDisconnect. by apply handleUserDisconnection_registryOk.
  - unfold cleanup.
    pose proof (cleanupUsers_fst now (activeUsers st) (activeUsers st)) as Hc.
    destruct (cleanupUsers now (activeUsers st) (activeUsers st)) as [au acts].
    cbn in *. subst au. by apply registryOk_deletes.
  - destruct (adminBan_state now n k st)
      as [E|(m & _ & _ & _ & [E|[id E]])]; rewrite E; [done|done|].
    unfold onDisconnect. by apply handleUserDisconnection_registryOk.
  - unfold adminUnban. destruct (bool_decide _); cbn; [|done].
    by destruct n as [[|]|].
Qed.

Lemma reachable_registryOk (st : state) :
  reachable st -> registryOk (activeUsers st).
Proof.
  induction 1 as [|now e st Hr IH].
  - split; constructor.
  - by apply step_registryOk.
Qed.

Lemma mapGet_lowerNames (k : sid) (u : user) (au : list (sid * user)) :
  mapGet k au = Some u -> In (toLowerCase (username u)) (lowerNames au).
Proof.
  intros H. apply mapGet_In in H. unfold lowerNames. apply in_map_iff.
  by exists (k, u).
Qed.

Lemma registryOk_unique (au : list (sid * user)) (id1 id2 : sid)
    (u1 u2 : user) :
  registryOk au ->
  mapGet id1 au = Some u1 -> mapGet id2 au = Some u2 ->
  toLowerCase (username u1) = toLowerCase (username u2) -> id1 = id2.
Proof.
  intros [_ Hn] H1 H2. apply mapGet_In in H1, H2. revert Hn H1 H2.
  unfold lowerNames.
  induction au as [|[k v] au IH]; cbn; [done|].
  intros Hnd Hin1 Hin2 Heq. inversion Hnd as [|? ? Hni Hnd']; subst.
  rewrite list_elem_of_In, in_map_iff in Hni.
  destruct Hin1 as [E1|Hin1], Hin2 as [E2|Hin2].
  - congruence.
  - inversion E1; subst. exfalso. apply Hni. by exists (id2, u2).
  - inversion E2; subst. exfalso. apply Hni. by exists (id1, u1).
  - by apply IH.
Qed.

(** C2: in every state the server reaches, two registry entries whose
    user names are equal up to case belong to the same connection.  And
    when a join has bound a name to a connection, a join that asks for a
    case variant of it, from any connection, changes nothing and sends one
    error, to the requester only; the first connection stays joined. *)
Theorem usernames_unique_up_to_case :
  (forall st, reachable st ->
     forall id1 id2 u1 u2,
       mapGet id1 (activeUsers st) = Some u1 ->
       mapGet id2 (activeUsers st) = Some u2 ->
       toLowerCase (username u1) = toLowerCase (username u2) -> id1 = id2)
  /\ (forall st id1 id2 now1 now2 raw1 raw2,
        isValidUsername (bannedUsers st) (sanitizeUsername raw1) = true ->
        existingUser (sanitizeUsername raw1) (activeUsers st) = None ->
        toLowerCase (sanitizeUsername raw2)
        = toLowerCase (sanitizeUsername raw1) ->
        let st1 := (onJoin id1 now1 (Some raw1) st).1 in
        (exists u1, mapGet id1 (activeUsers st1) = Some u1
                    /\ username u1 = sanitizeUsername raw1)
        /\ exists msg,
            (msg = errInvalidUsername \/ msg = errUsernameTaken)
            /\ onJoin id2 now2 (Some raw2) st1
               = (st1, [Emit (ToSocket id2) (ErrorMsg msg)])).
Proof.
  split.
  - intros st Hr id1 id2 u1 u2. apply registryOk_unique.
    by apply reachable_registryOk.
  - intros st id1 id2 now1 now2 raw1 raw2 Hvalid Hfree Hsame st1.
    assert (mapGet id1 (activeUsers st1)
            = Some (mkUser (sanitizeUsername raw1) now1 now1 id1 None))
      as Hget.
    { subst st1. unfold onJoin. rewrite Hvalid, Hfree. cbn.
      rewrite mapGet_mapSet. by rewrite decide_True. }
    split; [eexists; split; [exact Hget|done]|].
    unfold onJoin at 1.
    destruct (isValidUsername (bannedUsers st1) (sanitizeUsername raw2));
      cbn; [|by exists errInvalidUsername; split; [left|]].
    destruct (existingUser (sanitizeUsername raw2) (activeUsers st1))
      eqn:Hex; [by exists errUsernameTaken; split; [right|]|].
    exfalso. apply existingUser_None in Hex. apply Hex.
    rewrite Hsame. by apply (mapGet_lowerNames id1) in Hget.
Qed.

(** ** One user name per connection *)

Lemma mapGet_deletes (ks : list sid) (id : sid) (au : list (sid * user)) :
  mapGet id (fold_left (fun a k => mapDelete k a) ks au)
  = if decide (id ∈ ks) then None else mapGet id au.
Proof.
  revert au. induction ks as [|k ks IH]; intros au; cbn.
  - rewrite decide_False; [done|]. apply not_elem_of_nil.
  - rewrite IH, mapGet_mapDelete.
    destruct (decide (id ∈ ks)) as [Hin|Hni].
    + rewrite decide_True; [done|]. by apply list_elem_of_further.
    + destruct (decide (k = id)) as [->|Hne].
      * rewrite decide_True; [done|]. apply list_elem_of_here.
      * rewrite decide_False; [done|].
        rewrite elem_of_cons. intros [->|?]; done.
Qed.

Lemma handleUserDisconnection_get (id id' : sid) (now : Z) (st : state) :
  mapGet id' (activeUsers (handleUserDisconnection id now st).1) = None
  \/ mapGet id' (activeUsers (handleUserDisconnection id now st).1)
     = mapGet id' (activeUsers st).
Proof.
  unfold handleUserDisconnection.
  destruct (mapGet id (activeUsers st)); cbn; [|by right].
  rewrite mapGet_mapDelete. destruct (decide (id = id')); [by left|by right].
Qed.

(** C3 (as the code has it): a connection is bound to at most one user
    name at a time, and the name is set by a successful join.  No event
    other than a join on that connection changes the name bound to it
    (the entry can only go away); a later join on the same connection
    that the policy rejects changes nothing; a later join the policy
    accepts replaces the entry, and with it the user name. *)
Theorem username_changes_only_by_accepted_rejoin
    (now : Z) (e : event) (st : state) (id : sid) (u : user) :
  mapGet id (activeUsers st) = Some u ->
  (let st' := (step now e st).1 in
   mapGet id (activeUsers st') = None \/
   exists u', mapGet id (activeUsers st') = Some u' /\
     (username u' = username u \/
      exists raw, e = Join id (Some raw)
                  /\ username u' = sanitizeUsername raw))
  /\ (forall raw,
        e = Join id (Some raw) ->
        if isValidUsername (bannedUsers st) (sanitizeUsername raw)
        then match existingUser (sanitizeUsername raw) (activeUsers st) with
             | Some _ => (step now e st).1 = st
             | None =>
                 mapGet id (activeUsers (step now e st).1)
                 = Some (mkUser (sanitizeUsername raw) now now id None)
             end
        else (step now e st).1 = st).
Proof.
  intros Hget. split.
  - cbn zeta.
    assert (forall st' : state,
               activeUsers st' = activeUsers st ->
               mapGet id (activeUsers st') = None \/
               exists u', mapGet id (activeUsers st') = Some u' /\
                 (username u' = username u \/
                  exists raw, e = Join id (Some raw)
                              /\ username u' = sanitizeUsername raw))
      as Hsame.
    { intros st' ->. right. exists u. split; [done|by left]. }
    assert (forall (id' : sid) (v w : user),
               mapGet id' (activeUsers st) = Some w ->
               username v = username w ->
               mapGet id (mapSet id' v (activeUsers st)) = None \/
               exists u', mapGet id (mapSet id' v (activeUsers st)) = Some u' /\
                 (username u' = username u \/
                  exists raw, e = Join id (Some raw)
                              /\ username u' = sanitizeUsername raw))
      as Hupd.
    { intros id' v w Hw Hname. right. rewrite mapGet_mapSet.
      destruct (decide (id' = id)) as [->|Hne].
      - exists v. split; [done|]. left. congruence.
      - exists u. split; [done|by left]. }
    destruct e as [i|i arg|i arg|i t|i|i|i|i| |n k|n k]; cbn.
    + by apply Hsame.
    + unfold onJoin. destruct arg as [raw|]; [|by apply Hsame].
      destruct (isValidUsername _ _); cbn; [|by apply Hsame].
      destruct (existingUser _ _); cbn; [by apply Hsame|].
      right. rewrite mapGet_mapSet.
      destruct (decide (i = id)) as [->|Hne].
      * eexists. split; [done|]. right. by exists raw.
      * exists u. split; [done|by left].
    + unfold onMessage.
      destruct (mapGet i (activeUsers st)) as [w|] eqn:Hw; [|by apply Hsame].
      destruct arg as [raw|]; [|by apply Hsame].
      destruct (isValidMessage _); cbn; [|by apply Hsame].
      destruct (checkMessageRateLimit _ _ _) as [[] ua]; cbn;
        [|by apply Hsame].
      by apply (Hupd i _ w).
    + unfold onTyping. destruct (mapGet i (activeUsers st)); by apply Hsame.
    + unfold onUserIdle.
      destruct (mapGet i (activeUsers st)) as [w|] eqn:Hw; [|by apply Hsame].
      cbn. by apply (Hupd i _ w).
    + unfold onUserActive.
      destruct (mapGet i (activeUsers st)) as [w|] eqn:Hw; [|by apply Hsame].
      cbn. by apply (Hupd i _ w).
    + destruct (handleUserDisconnection_get i id now st) as [H|H];
        [by left|].
      unfold onLeave. rewrite H. by apply Hsame.
    + unfold onDisconnect.
      match goal with |- context [handleUserDisconnection i now ?s] =>
        destruct (handleUserDisconnection_get i id now s) as [H|H] end;
        [by left|].
      rewrite H. by apply Hsame.
    + unfold cleanup.
      pose proof (cleanupUsers_fst now (activeUsers st) (activeUsers st)) as Hc.
      destruct (cleanupUsers now (activeUsers st) (activeUsers st))
        as [au acts]. cbn in *. subst au. rewrite mapGet_deletes.
      destruct (decide _); [by left|by apply Hsame].
    + destruct (adminBan_state now n k st)
        as [E|(m & _ & _ & _ & [E|[i E]])]; rewrite E;
        [by apply Hsame|by apply Hsame|].
      unfold onDisconnect.
      match goal with |- context [handleUserDisconnection i now ?s] =>
        destruct (handleUserDisconnection_get i id now s) as [H|H] end;
        [by left|].
      rewrite H. by apply Hsame.
    + unfold adminUnban. destruct (bool_decide _); cbn; [|by apply Hsame].
      destruct n as [[|]|]; by apply Hsame.
  - intros raw ->. cbn. unfold onJoin.
    destruct (isValidUsername _ _); cbn; [|done].
    destruct (existingUser _ _); cbn; [done|].
    rewrite mapGet_mapSet. by rewrite decide_True.
Qed.

(** ** Leaving *)

Lemma handleUserDisconnection_spec (id : sid) (now : Z) (st : state) :
  let r := handleUserDisconnection id now st in
  mapGet id (activeUsers r.1) = None
  /\ r.2 = match mapGet id (activeUsers st) with
           | Some u => [Emit (ToRoomExcept id)
                          (UserLeft (username u) (length (activeUsers r.1)) now)]
           | None => []
           end
  /\ activeUsers r.1 = mapDelete id (activeUsers st)
  /\ recentMessages r.1 = recentMessages st
  /\ bannedUsers r.1 = bannedUsers st
  /\ sockets r.1 = sockets st /\ mainChat r.1 = mainChat st.
Proof.
  unfold handleUserDisconnection.
  destruct (mapGet id (activeUsers st)) as [u|] eqn:Hget; cbn.
  - rewrite mapGet_mapDelete. by rewrite decide_True.
  - repeat split; try done. symmetry. apply mapDelete_absent.
    by apply mapGet_None_keys.
Qed.

Lemma handleUserDisconnection_absent (id : sid) (now : Z) (st : state) :
  mapGet id (activeUsers st) = None ->
  handleUserDisconnection id now st = (st, []).
Proof. intros H. unfold handleUserDisconnection. by rewrite H. Qed.

(** C7: leaving is idempotent.  Whichever of 'leave' and 'disconnect'
    comes first removes the connection from the registry, leaves the other
    entries alone and, when the connection held a user name, sends exactly
    one userLeft (that name, the registry size after the removal, the
    time) to the room without the leaving socket; whichever comes second
    sends nothing and changes neither the registry nor the rate, buffer
    and ban state (a second 'leave' changes nothing at all). *)
Theorem leave_disconnect_idempotent
    (id : sid) (now1 now2 : Z) (e1 e2 : event) (st : state) :
  closes id e1 -> closes id e2 ->
  let r1 := step now1 e1 st in
  let r2 := step now2 e2 r1.1 in
  mapGet id (activeUsers r1.1) = None
  /\ r1.2 = match mapGet id (activeUsers st) with
            | Some u =>
                [Emit (ToRoomExcept id)
                   (UserLeft (username u) (length (activeUsers r1.1)) now1)]
            | None => []
            end
  /\ activeUsers r1.1 = mapDelete id (activeUsers st)
  /\ (forall s, id ∉ recipients s (ToRoomExcept id))
  /\ (reachable st -> is_Some (mapGet id (activeUsers st)) ->
      length (activeUsers r1.1) = (length (activeUsers st) - 1)%nat)
  /\ r2.2 = []
  /\ activeUsers r2.1 = activeUsers r1.1
  /\ userActivity r2.1 = userActivity r1.1
  /\ recentMessages r2.1 = recentMessages r1.1
  /\ bannedUsers r2.1 = bannedUsers r1.1
  /\ (e2 = Leave id -> r2.1 = r1.1).
Proof.
  intros H1 H2 r1 r2.
  assert (mapGet id (activeUsers r1.1) = None
          /\ r1.2 = match mapGet id (activeUsers st) with
                    | Some u =>
                        [Emit (ToRoomExcept id)
                           (UserLeft (username u)
                              (length (activeUsers r1.1)) now1)]
                    | None => []
                    end
          /\ activeUsers r1.1 = mapDelete id (activeUsers st)) as (Hgone & Hacts & Hau).
  { subst r1. destruct H1 as [->| ->]; cbn.
    - pose proof (handleUserDisconnection_spec id now1 st) as H. cbn in H.
      unfold onLeave. tauto.
    - unfold onDisconnect.
      match goal with |- context [handleUserDisconnection id now1 ?s] =>
        pose proof (handleUserDisconnection_spec id now1 s) as H end.
      cbn in H. tauto. }
  split; [done|]. split; [done|]. split; [done|].
  split.
  { intros s. cbn. rewrite elem_of_difference, elem_of_singleton. tauto. }
  split.
  { intros Hr [u Hu]. rewrite Hau.
    apply (mapDelete_length id u); [|done].
    by apply reachable_registryOk in Hr as [Hk _]. }
  subst r2. destruct H2 as [->| ->]; cbn.
  - unfold onLeave. rewrite handleUserDisconnection_absent by done. done.
  - unfold onDisconnect. rewrite handleUserDisconnection_absent by done.
    cbn. repeat split; done.
Qed.

(** ** Periodic cleanup *)

Lemma deletes_filter (ks : list sid) (au : list (sid * user)) :
  fold_left (fun a k => mapDelete k a) ks au
  = List.filter (fun e => negb (bool_decide (e.1 ∈ ks))) au.
Proof.
  revert au. induction ks as [|k ks IH]; intros au; cbn.
  - induction au as [|e au IHau]; [done|]. cbn.
    rewrite bool_decide_eq_false_2 by apply not_elem_of_nil. cbn.
    by f_equal.
  - rewrite IH, mapDelete_filter. clear IH.
    induction au as [|e au IHau]; [done|]. cbn.
    destruct (bool_decide_reflect (e.1 = k)) as [Heq|Hne]; cbn.
    + rewrite (bool_decide_eq_true_2 (e.1 ∈ k :: ks));
        [done|]. rewrite Heq. apply list_elem_of_here.
    + destruct (bool_decide_reflect (e.1 ∈ ks)) as [Hin|Hni]; cbn.
      * rewrite bool_decide_eq_true_2 by by apply list_elem_of_further.
        done.
      * rewrite bool_decide_eq_false_2; [cbn; by f_equal|].
        rewrite elem_of_cons. tauto.
Qed.

Lemma staleKeys_iff (now : Z) (au : list (sid * user)) (k : sid) (u : user) :
  NoDup (keys au) -> In (k, u) au ->
  k ∈ keys (List.filter (fun e => stale now e.2) au) <-> stale now u = true.
Proof.
  intros Hnd Hin. rewrite list_elem_of_In. unfold keys.
  rewrite in_map_iff. split.
  - intros [[k' u'] [Hk Hf]]. cbn in Hk. subst k'.
    apply filter_In in Hf as [Hin' Hs]. cbn in Hs.
    apply (In_mapGet _ _ _ Hnd) in Hin, Hin'. congruence.
  - intros Hs. exists (k, u). split; [done|]. by apply filter_In.
Qed.

Lemma cleanupUsers_registry (now : Z) (au : list (sid * user)) :
  NoDup (keys au) ->
  (cleanupUsers now au au).1
  = List.filter (fun e => negb (stale now e.2)) au.
Proof.
  intros Hnd. rewrite cleanupUsers_fst, deletes_filter.
  apply filter_ext_in. intros [k u] Hin. cbn. f_equal.
  destruct (stale now u) eqn:Hs.
  - apply bool_decide_eq_true. by apply (staleKeys_iff now au k u).
  - apply bool_decide_eq_false. rewrite (staleKeys_iff now au k u) by done.
    congruence.
Qed.

Lemma mapDelete_length_In (k : sid) (m : list (sid * user)) :
  NoDup (keys m) -> In k (keys m) ->
  length (mapDelete k m) = (length m - 1)%nat.
Proof.
  intros Hnd Hin. destruct (mapGet k m) as [v|] eqn:Hget.
  - by apply (mapDelete_length k v).
  - by apply mapGet_None_keys in Hget.
Qed.

Lemma keys_mapDelete (k k' : sid) (m : list (sid * user)) :
  In k' (keys m) -> k' <> k -> In k' (keys (mapDelete k m)).
Proof.
  unfold keys. rewrite !in_map_iff. intros [e [He Hin]] Hne.
  exists e. split; [done|]. apply In_mapDelete. split; [done|congruence].
Qed.

(** The userLeft events of one cleanup: one per stale entry, in iteration
    order, the [i]-th carrying the size of the map after [i + 1]
    removals. *)
Lemma cleanupUsers_snd (now : Z) (todo au : list (sid * user)) :
  NoDup (keys au) -> NoDup (keys todo) ->
  (forall k, In k (keys todo) -> In k (keys au)) ->
  (cleanupUsers now todo au).2
  = imap (fun i e =>
            Emit ToRoom (UserLeft (username e.2) (length au - S i) now))
         (List.filter (fun e => stale now e.2) todo).
Proof.
  revert au. induction todo as [|[k u] todo IH]; intros au Hau Htodo Hsub;
    cbn; [done|].
  inversion Htodo as [|? ? Hni Htodo']; subst.
  rewrite list_elem_of_In in Hni.
  unfold stale at 1. cbn.
  destruct (inactiveThreshold <? now - lastSeen u) eqn:Hs; cbn.
  - specialize (IH (mapDelete k au)).
    destruct (cleanupUsers now todo (mapDelete k au)) as [au2 acts]. cbn in *.
    assert (length (mapDelete k au) = (length au - 1)%nat) as Hlen.
    { apply mapDelete_length_In; [done|]. apply Hsub. by left. }
    rewrite IH.
    + rewrite Hlen. f_equal. apply imap_ext. intros i e _. cbn.
      replace (length au - 1 - S i)%nat with (length au - S (S i))%nat
        by lia. done.
    + by apply NoDup_map_mapDelete.
    + done.
    + intros k' Hk'. apply keys_mapDelete; [apply Hsub; by right|].
      intros ->. done.
  - apply IH; [done|done|]. intros k' Hk'. apply Hsub. by right.
Qed.

Lemma cleanupActivity_lookup (now : Z) (ua : gmap jsstring activity)
    (name : jsstring) :
  cleanupActivity now ua !! name
  = match ua !! name with
    | Some a => if decide (3600000 < now - lastMessage a) then None else Some a
    | None => None
    end.
Proof.
  unfold cleanupActivity. destruct (ua !! name) as [a|] eqn:Hl.
  - destruct (decide (3600000 < now - lastMessage a)) as [Hold|Hnew].
    + apply map_lookup_filter_None. right. intros x Hx. cbn.
      intros Hn. apply Hn. replace x with a by congruence. lia.
    + apply map_lookup_filter_Some. split; [done|]. cbn. lia.
  - apply map_lookup_filter_None. by left.
Qed.

(** C8: one cleanup removes exactly the registry entries whose [lastSeen]
    is more than 30 minutes old and keeps the others as they were, in
    order; it sends one userLeft to the room per removed entry, in
    iteration order, each with the registry size right after that removal;
    and it removes exactly the rate entries whose timestamp is more than
    60 minutes old.  Nothing else changes. *)
Theorem cleanup_removes_exactly_stale (now : Z) (st : state) :
  NoDup (keys (activeUsers st)) ->
  let r := cleanup now st in
  activeUsers r.1
  = List.filter (fun e => negb (stale now e.2)) (activeUsers st)
  /\ (forall id u, mapGet id (activeUsers st) = Some u ->
        mapGet id (activeUsers r.1)
        = if decide (30 * 60 * 1000 < now - lastSeen u) then None else Some u)
  /\ r.2 = imap (fun i e =>
                   Emit ToRoom
                     (UserLeft (username e.2)
                        (length (activeUsers st) - S i) now))
                (List.filter (fun e => stale now e.2) (activeUsers st))
  /\ (forall name,
        userActivity r.1 !! name
        = match userActivity st !! name with
          | Some a =>
              if decide (60 * 60 * 1000 < now - lastMessage a)
              then None else Some a
          | None => None
          end)
  /\ recentMessages r.1 = recentMessages st
  /\ bannedUsers r.1 = bannedUsers st
  /\ sockets r.1 = sockets st
  /\ mainChat r.1 = mainChat st.
Proof.
  intros Hnd r. subst r. unfold cleanup.
  pose proof (cleanupUsers_registry now (activeUsers st) Hnd) as Hfst.
  pose proof (cleanupUsers_snd now (activeUsers st) (activeUsers st) Hnd Hnd
                (fun k H => H)) as Hsnd.
  pose proof (cleanupUsers_fst now (activeUsers st) (activeUsers st)) as Hdel.
  destruct (cleanupUsers now (activeUsers st) (activeUsers st)) as [au acts].
  cbn in *. subst acts.
  split; [done|]. split.
  { intros id u Hget. rewrite Hdel, mapGet_deletes.
    pose proof (staleKeys_iff now (activeUsers st) id u Hnd
                  (mapGet_In _ _ _ Hget)) as Hiff.
    unfold stale, inactiveThreshold in Hiff. rewrite Z.ltb_lt in Hiff.
    destruct (decide (30 * 60 * 1000 < now - lastSeen u)) as [Hs|Hs].
    - rewrite decide_True; [done|]. by apply Hiff.
    - rewrite decide_False; [done|]. rewrite Hiff. done. }
  split; [done|]. split; [|done].
  intros name. apply cleanupActivity_lookup.
Qed.

(** C10: the cleanup removes the registry entry of a stale connection
    and nothing else of it: the socket stays open and in the room, and
    the cleanup only sends userLeft events.  The next 'message' from that
    connection gets the must-join error, sent to it alone, and changes
    nothing, which is what any connection without a registry entry
    gets. *)
Theorem evicted_connection_must_rejoin
    (now now' : Z) (st : state) (id : sid) (u : user) (arg : option jsstring) :
  mapGet id (activeUsers st) = Some u ->
  30 * 60 * 1000 < now - lastSeen u ->
  let r := cleanup now st in
  mapGet id (activeUsers r.1) = None
  /\ sockets r.1 = sockets st
  /\ mainChat r.1 = mainChat st
  /\ (forall a, In a r.2 ->
        exists name n t, a = Emit ToRoom (UserLeft name n t))
  /\ onMessage id now' arg r.1
     = (r.1, [Emit (ToSocket id) (ErrorMsg errMustJoin)])
  /\ (forall st0, mapGet id (activeUsers st0) = None ->
        onMessage id now' arg st0
        = (st0, [Emit (ToSocket id) (ErrorMsg errMustJoin)])).
Proof.
  intros Hget Hstale r.
  assert (forall st0, mapGet id (activeUsers st0) = None ->
            onMessage id now' arg st0
            = (st0, [Emit (ToSocket id) (ErrorMsg errMustJoin)])) as Hnone.
  { intros st0 H0. unfold onMessage. by rewrite H0. }
  assert (mapGet id (activeUsers r.1) = None) as Hgone.
  { subst r. unfold cleanup.
    pose proof (cleanupUsers_fst now (activeUsers st) (activeUsers st)) as Hdel.
    destruct (cleanupUsers now (activeUsers st) (activeUsers st)) as [au acts].
    cbn in *. rewrite Hdel, mapGet_deletes. rewrite decide_True; [done|].
    apply list_elem_of_In. unfold keys. apply in_map_iff. exists (id, u).
    split; [done|]. apply filter_In. split; [by apply mapGet_In|].
    cbn. unfold stale, inactiveThreshold. by apply Z.ltb_lt. }
  split; [done|]. split; [|split; [|split; [|split]]].
  - subst r. unfold cleanup. by destruct (cleanupUsers _ _ _).
  - subst r. unfold cleanup. by destruct (cleanupUsers _ _ _).
  - subst r. unfold cleanup.
    assert (forall todo au a, In a (cleanupUsers now todo au).2 ->
              exists name n t, a = Emit ToRoom (UserLeft name n t)) as Hall.
    { induction todo as [|[k v] todo IH]; intros au a; cbn; [done|].
      destruct (inactiveThreshold <? now - lastSeen v).
      - specialize (IH (mapDelete k au) a).
        destruct (cleanupUsers now todo (mapDelete k au)). cbn in *.
        intros [<-|Hin]; [by eexists _, _, _|by apply IH].
      - apply IH. }
    intros a Ha. apply (Hall (activeUsers st) (activeUsers st)).
    by destruct (cleanupUsers _ _ _).
  - by apply Hnone.
  - done.
Qed.

(** ** Admin endpoints *)

Lemma find_holder (n : jsstring) (au : list (sid * user)) (id : sid)
    (u : user) :
  registryOk au -> mapGet id au = Some u ->
  toLowerCase (username u) = toLowerCase n ->
  List.find (fun e => bool_decide (toLowerCase (username e.2) = toLowerCase n))
            au = Some (id, u).
Proof.
  intros Hok Hget Hname.
  destruct (List.find _ au) as [[id' u']|] eqn:Hfind.
  - apply find_some in Hfind as [Hin Heq]. cbn in Heq.
    apply bool_decide_eq_true in Heq.
    assert (mapGet id' au = Some u') as Hget'
      by (apply In_mapGet; [apply Hok|done]).
    assert (id = id') as <-
      by (apply (registryOk_unique au id id' u u'); [done..|congruence]).
    congruence.
  - exfalso. apply mapGet_In in Hget.
    pose proof (find_none _ _ Hfind _ Hget) as Hno. cbn in Hno.
    by apply bool_decide_eq_false in Hno.
Qed.

Lemma find_no_holder (n : jsstring) (au : list (sid * user)) :
  ~ In (toLowerCase n) (lowerNames au) ->
  List.find (fun e => bool_decide (toLowerCase (username e.2) = toLowerCase n))
            au = None.
Proof.
  intros Hni. destruct (List.find _ au) as [[id' u']|] eqn:Hfind; [|done].
  exfalso. apply find_some in Hfind as [Hin Heq]. cbn in Heq.
  apply bool_decide_eq_true in Heq. apply Hni. unfold lowerNames.
  apply in_map_iff. by exists (id', u').
Qed.

Lemma disconnection_activity (id : sid) (now : Z) (st : state) (u : user)
    (name : jsstring) :
  mapGet id (activeUsers st) = Some u ->
  userActivity (handleUserDisconnection id now st).1 !! name
  = match userActivity st !! name with
    | Some a =>
        if decide (name = username u /\ 5 * 60 * 1000 < now - lastMessage a)
        then None else Some a
    | None => None
    end.
Proof.
  intros Hget. unfold handleUserDisconnection. rewrite Hget. cbn.
  destruct (userActivity st !! username u) as [b|] eqn:Hb.
  - destruct (Z.ltb_spec (5 * 60 * 1000) (now - lastMessage b)) as [Ho|Hn].
    + rewrite lookup_delete. case_decide as Heq.
      * subst name. rewrite Hb. by rewrite decide_True.
      * destruct (userActivity st !! name); [|done].
        rewrite decide_False; [done|]. intros [? _]. congruence.
    + destruct (userActivity st !! name) as [a|] eqn:Ha; [|done].
      rewrite decide_False; [done|]. intros [-> Hlt].
      rewrite Hb in Ha. inversion Ha; subst. lia.
  - destruct (userActivity st !! name) as [a|] eqn:Ha; [|done].
    rewrite decide_False; [done|]. intros [-> _]. congruence.
Qed.

(** C9: with the right credential and a user name, ban adds the
    lower-cased name to the ban list.  When an open connection holds that
    name up to case, the ban first sends it the ban error and then
    force-disconnects it, which runs that connection's disconnect handler
    before the request is answered: its registry entry goes, the socket
    leaves the open sockets and the room, userLeft goes to the others and
    a rate entry older than five minutes is dropped; no other connection
    is touched.  When no entry holds the name, the ban only extends the
    ban list and answers.  For ban and unban alike, a wrong credential is
    answered with 401 and, with the right credential, a missing user name
    with 400; in both cases the state is unchanged. *)
Theorem admin_ban_unban (now : Z) (name adminKey : option jsstring)
    (st : state) :
  (adminKey <> ADMIN_KEY ->
     adminBan now name adminKey st = (st, [Respond Unauthorized401])
     /\ adminUnban name adminKey st = (st, [Respond Unauthorized401]))
  /\ (adminKey = ADMIN_KEY -> missing name = true ->
     adminBan now name adminKey st = (st, [Respond UsernameRequired400])
     /\ adminUnban name adminKey st = (st, [Respond UsernameRequired400]))
  /\ (forall n, adminKey = ADMIN_KEY -> name = Some n -> n <> [] ->
      let r := adminBan now name adminKey st in
      bannedUsers r.1 = {[ toLowerCase n ]} ∪ bannedUsers st
      /\ recentMessages r.1 = recentMessages st
      /\ (forall id u,
            reachable st ->
            mapGet id (activeUsers st) = Some u ->
            toLowerCase (username u) = toLowerCase n ->
            id ∈ sockets st ->
            r.2 = [Emit (ToSocket id) (ErrorMsg errBanned);
                   ForceDisconnect id;
                   Emit (ToRoomExcept id)
                     (UserLeft (username u)
                        (length (activeUsers st) - 1) now);
                   Respond (Success200 n)]
            /\ activeUsers r.1 = mapDelete id (activeUsers st)
            /\ (forall id', id' <> id ->
                  mapGet id' (activeUsers r.1) = mapGet id' (activeUsers st))
            /\ sockets r.1 = sockets st ∖ {[ id ]}
            /\ mainChat r.1 = mainChat st ∖ {[ id ]}
            /\ (forall name',
                  userActivity r.1 !! name'
                  = match userActivity st !! name' with
                    | Some a =>
                        if decide (name' = username u
                                   /\ 5 * 60 * 1000 < now - lastMessage a)
                        then None else Some a
                    | None => None
                    end))
      /\ (~ In (toLowerCase n) (lowerNames (activeUsers st)) ->
          r = (set_bannedUsers ({[ toLowerCase n ]} ∪ bannedUsers st) st,
               [Respond (Success200 n)]))).
Proof.
  split; [|split].
  - intros Hne. unfold adminBan, adminUnban.
    by rewrite bool_decide_eq_false_2.
  - intros Heq Hmiss. unfold adminBan, adminUnban.
    rewrite bool_decide_eq_true_2 by done. cbn.
    by destruct name as [[|]|].
  - intros n Heq -> Hn r. subst r.
    split; [|split; [|split]].
    + unfold adminBan. rewrite bool_decide_eq_true_2 by done. cbn [negb].
      destruct n as [|c n]; [done|].
      destruct (List.find _ _) as [[id u]|]; [|done].
      destruct (decide _); [|done]. unfold onDisconnect.
      match goal with |- context [handleUserDisconnection id now ?s] =>
        pose proof (handleUserDisconnection_spec id now s) as H;
        destruct (handleUserDisconnection id now s) end.
      cbn in *. tauto.
    + destruct (adminBan_state now (Some n) adminKey st)
        as [E|(m & _ & _ & _ & [E|[id E]])]; rewrite E;
        [done|done|by rewrite onDisconnect_recent].
    + intros id u Hr Hget Hname Hopen.
      pose proof (reachable_registryOk st Hr) as Hok.
      unfold adminBan. rewrite bool_decide_eq_true_2 by done. cbn [negb].
      destruct n as [|c n]; [done|].
      rewrite (find_holder (c :: n) (activeUsers st) id u) by done.
      rewrite decide_True by done.
      pose proof (disconnection_activity id now
                    (set_mainChat (mainChat st ∖ {[ id ]})
                       (set_sockets (sockets st ∖ {[ id ]})
                          (set_bannedUsers
                             ({[ toLowerCase (c :: n) ]} ∪ bannedUsers st)
                             st))) u) as Hact.
      cbn in Hact. specialize (fun x => Hact x Hget).
      unfold onDisconnect, handleUserDisconnection in *. cbn in *.
      rewrite Hget in *. cbn in *.
      rewrite (mapDelete_length id u) by (apply Hok || done).
      split; [done|]. split; [done|]. split; [|done].
      intros id' Hne. rewrite mapGet_mapDelete. by rewrite decide_False.
    + intros Hni. unfold adminBan. rewrite bool_decide_eq_true_2 by done.
      cbn [negb]. destruct n as [|c n]; [done|].
      by rewrite find_no_holder.
Qed.

(** ** Strings and patterns *)

Lemma removeAllFrom_Chr (p : N -> bool) (prev : option N) (s : jsstring) :
  removeAllFrom (Chr p) 0 prev s = List.filter (fun c => negb (p c)) s.
Proof.
  revert prev. induction s as [|c s IH]; intros prev; [done|].
  cbn [removeAllFrom List.filter]. unfold exec. cbn [rmatch].
  destruct (p c); cbn [negb].
  - replace (length (c :: s) - length s)%nat with 1%nat by (cbn; lia).
    apply IH.
  - f_equal. apply IH.
Qed.

Lemma removeAll_angleBracket (s : jsstring) :
  removeAll angleBracket s = List.filter (fun c => negb (isAngle c)) s.
Proof. apply removeAllFrom_Chr. Qed.

Lemma In_trimStart (c : N) (s : jsstring) : In c (trimStart s) -> In c s.
Proof.
  induction s as [|d s IH]; cbn; [done|].
  destruct (isWhiteSpace d); [intros H; right; by apply IH|done].
Qed.

Lemma In_trim (c : N) (s : jsstring) : In c (trim s) -> In c s.
Proof.
  unfold trim, trimEnd. intros H. apply In_trimStart.
  apply in_rev in H. apply In_trimStart in H. by apply in_rev.
Qed.

Lemma trimStart_head (s : jsstring) (c : N) (s' : jsstring) :
  trimStart s = c :: s' -> isWhiteSpace c = false.
Proof.
  induction s as [|d s IH]; cbn; [done|].
  destruct (isWhiteSpace d) eqn:Hd; [done|]. intros H. congruence.
Qed.

Lemma trimStart_snoc (l : jsstring) (d : N) :
  isWhiteSpace d = false -> trimStart (l ++ [d]) = trimStart l ++ [d].
Proof.
  intros Hd. induction l as [|c l IH]; cbn; [by rewrite Hd|].
  destruct (isWhiteSpace c); done.
Qed.

Lemma trim_trimmed (s : jsstring) : trimmed (trim s).
Proof.
  unfold trim, trimEnd. split.
  - intros c s' H. destruct (trimStart s) as [|d t] eqn:Ht; [done|].
    pose proof (trimStart_head _ _ _ Ht) as Hd.
    cbn [rev] in H. rewrite trimStart_snoc in H by done.
    rewrite rev_unit in H. congruence.
  - intros c s' H. apply (f_equal (@rev N)) in H.
    rewrite rev_involutive, rev_unit in H.
    by apply trimStart_head in H.
Qed.

Lemma sanitizeUsername_shape (raw : jsstring) :
  Forall (fun c => isAngle c = false) (sanitizeUsername raw)
  /\ trimmed (sanitizeUsername raw).
Proof.
  unfold sanitizeUsername. split; [|apply trim_trimmed].
  apply List.Forall_forall. intros c Hc. apply In_trim in Hc.
  rewrite removeAll_angleBracket in Hc. apply filter_In in Hc as [_ Hc].
  by apply negb_true_iff.
Qed.

Lemma sanitizeMessage_shape (raw : jsstring) :
  Forall (fun c => isAngle c = false) (sanitizeMessage raw)
  /\ trimmed (sanitizeMessage raw).
Proof.
  unfold sanitizeMessage. split; [|apply trim_trimmed].
  apply List.Forall_forall. intros c Hc. apply In_trim in Hc.
  rewrite removeAll_angleBracket in Hc. apply filter_In in Hc as [_ Hc].
  by apply negb_true_iff.
Qed.

(** ** The script pattern, read without backtracking *)

Lemma rmatch_litI (pat : jsstring) (prev : option N) (s : jsstring)
    (k : cont) :
  rmatch (litI pat) prev s k
  = match stripPrefixI pat s with
    | Some r => k (prevAfter (length pat) prev s) r
    | None => None
    end.
Proof.
  revert prev s. induction pat as [|p pat IH]; intros prev s; [done|].
  destruct s as [|c s]; [done|]. cbn.
  destruct (canonicalize c =? canonicalize p)%N; [apply IH|done].
Qed.

Lemma stripPrefixI_snoc_prev (pat : jsstring) (p : N) (s r : jsstring)
    (prev : option N) :
  stripPrefixI (pat ++ [p]) s = Some r ->
  exists c, prevAfter (length (pat ++ [p])) prev s = Some c
            /\ canonicalize c = canonicalize p.
Proof.
  revert s prev. induction pat as [|q pat IH]; intros s prev H.
  - destruct s as [|c s]; [done|]. cbn in *.
    destruct (N.eqb_spec (canonicalize c) (canonicalize p)); [|done].
    by exists c.
  - destruct s as [|c s]; [done|]. cbn in *.
    destruct (canonicalize c =? canonicalize q)%N; [|done].
    by apply IH.
Qed.

Lemma canonicalize_lt (c : N) : canonicalize c = 60%N <-> c = 60%N.
Proof.
  unfold canonicalize, isLowerAZ, inRange.
  destruct (N.leb_spec 97 c), (N.leb_spec c 122); cbn; lia.
Qed.

Lemma canonicalize_t_word (c : N) :
  canonicalize c = canonicalize 116 -> isWordChar c = true.
Proof.
  change (canonicalize 116) with 84%N.
  unfold canonicalize, isLowerAZ, inRange.
  destruct (N.leb_spec 97 c), (N.leb_spec c 122); cbn; intros Hc.
  - assert (c = 116%N) as -> by lia. done.
  - by subst.
  - by subst.
  - by subst.
Qed.

Lemma stripPrefixI_needs_lt (pat : jsstring) (c : N) (s : jsstring) :
  isLt c = false -> stripPrefixI (60%N :: pat) (c :: s) = None.
Proof.
  unfold isLt. intros Hc. cbn.
  destruct (N.eqb_spec (canonicalize c) 60) as [Heq|]; [|done].
  apply (proj1 (canonicalize_lt c)) in Heq. subst. done.
Qed.

Lemma scriptClose_needs_lt (c : N) (s : jsstring) :
  isLt c = false -> stripPrefixI scriptClose (c :: s) = None.
Proof. apply (stripPrefixI_needs_lt (js "/script>")). Qed.

Lemma scriptOpen_needs_lt (c : N) (s : jsstring) :
  isLt c = false -> stripPrefixI scriptOpen (c :: s) = None.
Proof. apply (stripPrefixI_needs_lt (js "script")). Qed.

Lemma scriptOpen_prev_word (prev : option N) (s r : jsstring) :
  stripPrefixI scriptOpen s = Some r ->
  isWordAt (prevAfter (length scriptOpen) prev s) = true.
Proof.
  change scriptOpen with (js "<scrip" ++ [116%N]). intros H.
  apply (stripPrefixI_snoc_prev _ _ _ _ prev) in H as [c [-> Hc]].
  by apply canonicalize_t_word.
Qed.

Lemma length_dropWhile (p : N -> bool) (s : jsstring) :
  (length (dropWhile p s) <= length s)%nat.
Proof.
  induction s as [|c s IH]; cbn; [done|]. destruct (p c); cbn; lia.
Qed.

(** A greedy run of a class, followed by something that cannot start
    inside the class: giving characters back never helps, the run is
    skipped whole. *)
Lemma star_chr_skip (p : N -> bool) (k : cont) :
  (forall prev c s', p c = true -> k prev (c :: s') = None) ->
  (forall prev prev' s, k prev s = k prev' s) ->
  forall fuel prev s, (length s <= fuel)%nat ->
    star_loop (rmatch (Chr p)) fuel prev s k = k None (dropWhile p s).
Proof.
  intros Hstart Hprev. induction fuel as [|fuel IH]; intros prev s Hlen.
  - destruct s; [apply Hprev|cbn in Hlen; lia].
  - destruct s as [|c s]; [apply Hprev|]. cbn in Hlen.
    cbn [star_loop rmatch dropWhile].
    destruct (p c) eqn:Hc; [|apply Hprev].
    rewrite decide_True by (cbn; lia). rewrite IH by lia.
    destruct (k None (dropWhile p s)) eqn:Hk; [done|].
    by apply Hstart.
Qed.

Lemma closeScan_atLt (s : jsstring) :
  closeScan s = atLt (dropWhile notLt s).
Proof.
  induction s as [|c s IH]; [done|]. cbn [dropWhile].
  unfold notLt at 1. fold (isLt c). destruct (isLt c) eqn:Hc; cbn [negb].
  - cbn [atLt]. by rewrite Hc.
  - cbn [closeScan]. rewrite Hc. apply IH.
Qed.

Lemma rmatch_scriptRound (prev : option N) (s : jsstring) (k : cont) :
  rmatch scriptRound prev s k
  = match stripPrefixI scriptClose s with
    | Some _ => None
    | None =>
        match s with
        | c :: s' =>
            if isLt c
            then star_loop (rmatch (Chr notLt)) (length s') (Some c) s' k
            else None
        | [] => None
        end
    end.
Proof.
  unfold scriptRound. cbn [rmatch]. rewrite rmatch_litI.
  destruct (stripPrefixI scriptClose s); [done|].
  destruct s as [|c s]; [done|]. by destruct (isLt c).
Qed.

Lemma star_scriptRound (fuel : nat) (prev : option N) (s : jsstring) :
  (length s <= fuel)%nat ->
  star_loop (rmatch scriptRound) fuel prev s
    (fun p' s' => rmatch (litI scriptClose) p' s' (fun _ s'' => Some s''))
  = atLt s.
Proof.
  revert prev s. induction fuel as [|fuel IH]; intros prev s Hlen.
  - destruct s; [done|cbn in Hlen; lia].
  - cbn [star_loop]. rewrite rmatch_scriptRound, rmatch_litI.
    destruct (stripPrefixI scriptClose s) as [rest|] eqn:Hclose.
    + destruct s as [|c s]; [done|]. cbn [atLt].
      destruct (isLt c) eqn:Hc.
      * cbn [closeScan]. by rewrite Hc, Hclose.
      * by rewrite (scriptClose_needs_lt c s Hc) in Hclose.
    + destruct s as [|c s]; [done|]. cbn [atLt]. cbn in Hlen.
      destruct (isLt c) eqn:Hc; [|done].
      rewrite star_chr_skip.
      * rewrite decide_True
          by (pose proof (length_dropWhile notLt s); cbn; lia).
        rewrite IH by (pose proof (length_dropWhile notLt s); lia).
        cbn [closeScan]. rewrite Hc, Hclose, closeScan_atLt.
        by destruct (atLt (dropWhile notLt s)).
      * intros p0 c0 s0 Hc0. destruct (decide _) as [Hl|]; [|done].
        rewrite IH by (cbn [length] in *; lia). cbn. unfold notLt in Hc0.
        fold (isLt c0) in Hc0. by destruct (isLt c0).
      * intros p0 p1 s0. destruct (decide _) as [Hl|]; [|done].
        rewrite !IH by (cbn [length] in *; lia). done.
      * done.
Qed.

Lemma exec_scriptBlock_unfold (prev : option N) (s : jsstring) :
  exec scriptBlock prev s
  = rmatch (litI scriptOpen) prev s (fun p1 s1 =>
      if xorb (isWordAt p1) (isWordAt (head s1))
      then star_loop (rmatch (Chr notLt)) (length s1) p1 s1 (fun p2 s2 =>
             star_loop (rmatch scriptRound) (length s2) p2 s2
               (fun p' s' =>
                  rmatch (litI scriptClose) p' s' (fun _ s'' => Some s'')))
      else None).
Proof. reflexivity. Qed.

(** The matcher on the script pattern agrees with the direct reading. *)
Lemma exec_scriptBlock (prev : option N) (s : jsstring) :
  exec scriptBlock prev s = scriptBlockAt s.
Proof.
  rewrite exec_scriptBlock_unfold, rmatch_litI. unfold scriptBlockAt.
  destruct (stripPrefixI scriptOpen s) as [r|] eqn:Hopen; [|done].
  rewrite (scriptOpen_prev_word prev s r Hopen). cbn [xorb].
  destruct (isWordAt (head r)); cbn [negb]; [done|].
  rewrite star_chr_skip.
  - rewrite star_scriptRound by done. symmetry. apply closeScan_atLt.
  - intros p0 c0 s0 Hc0. rewrite star_scriptRound by done. cbn.
    unfold notLt in Hc0. fold (isLt c0) in Hc0. by destruct (isLt c0).
  - intros p0 p1 s0. by rewrite !star_scriptRound.
  - done.
Qed.

Lemma removeAllFrom_scriptBlock_prev (n : nat) (prev prev' : option N)
    (s : jsstring) :
  removeAllFrom scriptBlock n prev s = removeAllFrom scriptBlock n prev' s.
Proof.
  destruct s as [|c s]; [done|]. cbn [removeAllFrom].
  by rewrite !exec_scriptBlock.
Qed.

Lemma removeAllFrom_scriptBlock_skip (l post : jsstring)
    (prev prev' : option N) :
  removeAllFrom scriptBlock (length l) prev (l ++ post)
  = removeAllFrom scriptBlock 0 prev' post.
Proof.
  revert prev. induction l as [|c l IH]; intros prev.
  - apply removeAllFrom_scriptBlock_prev.
  - cbn. apply IH.
Qed.

Lemma removeAllFrom_scriptBlock_keep (pre rest : jsstring)
    (prev : option N) :
  Forall (fun c => notLt c = true) pre ->
  removeAllFrom scriptBlock 0 prev (pre ++ rest)
  = pre ++ removeAllFrom scriptBlock 0 prev rest.
Proof.
  intros Hpre. revert prev. induction Hpre as [|c pre Hc Hpre IH];
    intros prev; [done|].
  cbn [app removeAllFrom]. rewrite exec_scriptBlock. unfold scriptBlockAt.
  rewrite scriptOpen_needs_lt
    by (unfold notLt in Hc; fold (isLt c) in Hc; by destruct (isLt c)).
  f_equal. rewrite IH.
  f_equal. apply removeAllFrom_scriptBlock_prev.
Qed.

Lemma stripPrefixI_ci (pat o rest : jsstring) :
  ciEq o pat -> stripPrefixI pat (o ++ rest) = Some rest.
Proof.
  unfold ciEq. revert o. induction pat as [|p pat IH]; intros o Ho.
  - by destruct o.
  - destruct o as [|c o]; [done|]. cbn in *. inversion Ho as [[Hc Ho']].
    rewrite Hc, N.eqb_refl. by apply IH.
Qed.

Lemma ciEq_head_lt (o pat : jsstring) :
  ciEq o (60%N :: pat) -> exists o', o = 60%N :: o'.
Proof.
  unfold ciEq. destruct o as [|c o]; [done|]. cbn. intros Ho.
  inversion Ho as [[Hc Ho']].
  apply (proj1 (canonicalize_lt c)) in Hc. subst. by exists o.
Qed.

Lemma closeScan_block (inner close post : jsstring) :
  Forall (fun c => notLt c = true) inner -> ciEq close scriptClose ->
  closeScan (inner ++ close ++ post) = Some post.
Proof.
  intros Hin Hclose. induction Hin as [|c inner Hc Hin IH].
  - destruct (ciEq_head_lt close (js "/script>") Hclose) as [close' ->].
    cbn [app closeScan]. change (isLt 60) with true.
    change (60%N :: close' ++ post) with ((60%N :: close') ++ post).
    by rewrite stripPrefixI_ci.
  - cbn [app closeScan]. unfold notLt in Hc. fold (isLt c) in Hc.
    destruct (isLt c); [done|]. apply IH.
Qed.

Lemma scriptBlockAt_block (open inner close post : jsstring) :
  ciEq open scriptOpen -> ciEq close scriptClose ->
  Forall (fun c => notLt c = true) inner ->
  isWordAt (head inner) = false ->
  scriptBlockAt (open ++ inner ++ close ++ post) = Some post.
Proof.
  intros Hopen Hclose Hin Hword. unfold scriptBlockAt.
  rewrite stripPrefixI_ci by done.
  assert (isWordAt (head (inner ++ close ++ post)) = false) as ->.
  { destruct inner as [|c inner]; [|done].
    by destruct (ciEq_head_lt close (js "/script>") Hclose) as [close' ->]. }
  by apply closeScan_block.
Qed.

(** One well-formed block, after text without <, goes away whole, up to
    its first closing tag; what follows is treated on its own. *)
Lemma removeAll_scriptBlock_block (pre open inner close post : jsstring) :
  Forall (fun c => notLt c = true) pre ->
  ciEq open scriptOpen -> ciEq close scriptClose ->
  Forall (fun c => notLt c = true) inner ->
  isWordAt (head inner) = false ->
  removeAll scriptBlock (pre ++ open ++ inner ++ close ++ post)
  = pre ++ removeAll scriptBlock post.
Proof.
  intros Hpre Hopen Hclose Hin Hword. unfold removeAll.
  rewrite removeAllFrom_scriptBlock_keep by done. f_equal.
  pose proof (scriptBlockAt_block open inner close post Hopen Hclose Hin Hword)
    as Hat.
  destruct (ciEq_head_lt open (js "script") Hopen) as [open' ->].
  cbn [app removeAllFrom] in *. rewrite exec_scriptBlock, Hat.
  replace (length (60%N :: open' ++ inner ++ close ++ post) - length post)%nat
    with (S (length (open' ++ inner ++ close)))
    by (cbn [length]; rewrite !length_app; lia).
  replace (open' ++ inner ++ close ++ post)
    with ((open' ++ inner ++ close) ++ post) by by rewrite <- !app_assoc.
  apply removeAllFrom_scriptBlock_skip.
Qed.







(** ** Message policy *)


(** ** User name policy *)

Lemma testFrom_Bol (r : regex) (c : N) (s : jsstring) :
  testFrom (Cat Bol r) (Some c) s = false.
Proof.
  revert c. induction s as [|d s IH]; intros c; cbn; [done|]. apply IH.
Qed.

Lemma star_class_eol (p : N -> bool) (fuel : nat) (prev : option N)
    (s : jsstring) :
  (length s <= fuel)%nat ->
  star_loop (rmatch (Chr p)) fuel prev s
    (fun p' s' => rmatch Eol p' s' (fun _ s'' => Some s''))
  = if forallb p s then Some [] else None.
Proof.
  revert prev s. induction fuel as [|fuel IH]; intros prev s Hlen.
  - destruct s; [done|cbn in Hlen; lia].
  - destruct s as [|c s]; [done|]. cbn in Hlen. cbn.
    destruct (p c); cbn; [|done].
    rewrite decide_True by lia. rewrite IH by lia.
    by destruct (forallb p s).
Qed.

Lemma exec_usernamePattern (c : N) (s : jsstring) :
  exec usernamePattern None (c :: s)
  = if isUsernameChar c
    then star_loop (rmatch (Chr isUsernameChar)) (length s) (Some c) s
           (fun p' s' => rmatch Eol p' s' (fun _ s'' => Some s''))
    else None.
Proof. reflexivity. Qed.

Lemma test_usernamePattern (s : jsstring) :
  test usernamePattern s
  = negb (bool_decide (s = [])) && forallb isUsernameChar s.
Proof.
  unfold test. destruct s as [|c s]; [done|].
  cbn [testFrom]. rewrite exec_usernamePattern.
  rewrite bool_decide_eq_false_2 by done. cbn [negb andb forallb].
  destruct (isUsernameChar c); cbn [andb]; [|apply testFrom_Bol].
  rewrite star_class_eol by done.
  destruct (forallb isUsernameChar s); [done|apply testFrom_Bol].
Qed.

(** What the policy accepts, exactly: a name of 1 to 20 code units, each
    of them a letter A-Z or a-z, a digit, an underscore, a hyphen or a
    white-space character of the class [\s] (the space, but also the tab,
    the line terminators, the no-break space and the other Unicode
    spaces), whose lower-cased form is not on the ban list.  The join
    handler applies it to the sanitized name, which has no angle bracket
    and no white space at either end. *)
Theorem accepted_username_shape (banned : gset jsstring) (name : jsstring) :
  (isValidUsername banned name = true <->
     (1 <= length name <= 20)%nat
     /\ Forall (fun c => isUsernameChar c = true) name
     /\ toLowerCase name ∉ banned)
  /\ (forall c, isUsernameChar c = true <->
        isUpperAZ c = true \/ isLowerAZ c = true \/ isDigit c = true
        \/ c = 95%N \/ c = 45%N \/ isWhiteSpace c = true)
  /\ (forall raw,
        Forall (fun c => isAngle c = false) (sanitizeUsername raw)
        /\ trimmed (sanitizeUsername raw)).
Proof.
  split; [|split; [|apply sanitizeUsername_shape]].
  - unfold isValidUsername. rewrite test_usernamePattern.
    rewrite !andb_true_iff, !negb_true_iff, !bool_decide_eq_false.
    rewrite Nat.leb_le, Nat.leb_le, forallb_forall, List.Forall_forall.
    split.
    + intros [[[[_ H1] H20] [_ Hall]] Hban]. done.
    + intros [[H1 H20] [Hall Hban]]. repeat split; try done.
      all: intros ->; cbn in H1; lia.
  - intros c. unfold isUsernameChar.
    rewrite !orb_true_iff, !N.eqb_eq. tauto.
Qed.

(** ** Reachability of concrete runs *)

Lemma reachable_run (evs : list (Z * event)) (st : state) :
  reachable st -> reachable (run evs st).1.
Proof.
  revert st. induction evs as [|[now e] evs IH]; intros st Hr; [done|].
  cbn. pose proof (reachable_step now e st Hr) as Hs.
  destruct (step now e st) as [st1 a1]. cbn in Hs.
  specialize (IH st1 Hs). by destruct (run evs st1).
Qed.

(** ** More on the rate limiter *)

(** A user without an entry who sends any number of messages within 60 s
    of the first one gets exactly the first ten admitted. *)
Theorem fresh_user_first_ten_admitted (name : jsstring) (t0 : Z)
    (rest : list Z) (ua : gmap jsstring activity) :
  ua !! name = None ->
  Forall (fun t => t0 <= t <= t0 + 60000) rest ->
  (limiterRun checkMessageRateLimit (t0 :: rest) name ua).1
  = List.map (fun i => (i <? 10)%nat) (seq 0 (S (length rest))).
Proof.
  intros Hnone Hrest. cbn [limiterRun]. unfold checkMessageRateLimit at 1.
  rewrite Hnone.
  pose proof (window_admits_up_to_ten name t0 rest
                (<[name := mkActivity 1 t0]> ua) (mkActivity 1 t0)
                (lookup_insert_eq _ _ _)) as Hrun.
  cbn in Hrun. specialize (Hrun ltac:(lia) ltac:(lia) Hrest).
  destruct (limiterRun _ rest name _) as [oks ua2]. cbn in *.
  f_equal. rewrite Hrun, <- seq_shift, List.map_map.
  apply map_ext. intros i.
  destruct (Z.ltb_spec (1 + Z.of_nat i) 10), (Nat.leb_spec (S i) 9);
    try done; exfalso; lia.
Qed.

(** While the entry is full, attempts made within 60 s of the last
    admitted message are all rejected and leave the limiter state as it
    was, so they do not prolong the block: the first message that comes
    more than 60 s after the last admitted one is admitted and restarts
    the count at 1. *)
Theorem rejections_do_not_prolong_block (name : jsstring) (ts : list Z)
    (ua : gmap jsstring activity) (a : activity) :
  ua !! name = Some a -> 10 <= messageCount a ->
  Forall (fun t => t - lastMessage a <= 60000) ts ->
  limiterRun checkMessageRateLimit ts name ua
  = (List.map (fun _ => false) ts, ua)
  /\ forall t', 60000 < t' - lastMessage a ->
       checkMessageRateLimit t' name ua
       = (true, <[name := mkActivity 1 t']> ua).
Proof.
  intros Hl Hfull Hts. split.
  - induction Hts as [|t ts Ht Hts IH]; [done|].
    cbn [limiterRun List.map]. unfold checkMessageRateLimit at 1.
    rewrite Hl. unfold MESSAGE_WINDOW, MESSAGE_RATE_LIMIT.
    rewrite (proj2 (Z.ltb_ge _ _)) by lia.
    rewrite (proj2 (Z.ltb_ge _ _)) by lia.
    by rewrite IH.
  - intros t' Ht'. unfold checkMessageRateLimit. rewrite Hl.
    unfold MESSAGE_WINDOW. by rewrite (proj2 (Z.ltb_lt _ _)) by lia.
Qed.

Lemma checkMessageRateLimit_count (now : Z) (name : jsstring)
    (ua : gmap jsstring activity) :
  (forall n a, ua !! n = Some a -> 1 <= messageCount a <= 10) ->
  forall n a, (checkMessageRateLimit now name ua).2 !! n = Some a ->
              1 <= messageCount a <= 10.
Proof.
  intros Hok n a. unfold checkMessageRateLimit, MESSAGE_RATE_LIMIT.
  destruct (ua !! name) as [b|] eqn:Hb.
  - destruct (MESSAGE_WINDOW <? now - lastMessage b); cbn.
    + rewrite lookup_insert. case_decide; [|apply Hok].
      intros [= <-]. cbn. lia.
    + destruct (Z.ltb_spec (messageCount b) 10); cbn; [|apply Hok].
      rewrite lookup_insert. case_decide; [|apply Hok].
      intros [= <-]. cbn. specialize (Hok name b Hb). lia.
  - cbn. rewrite lookup_insert. case_decide; [|apply Hok].
    intros [= <-]. cbn. lia.
Qed.

Lemma handleUserDisconnection_count (id : sid) (now : Z) (st : state) :
  (forall n a, userActivity st !! n = Some a -> 1 <= messageCount a <= 10) ->
  forall n a,
    userActivity (handleUserDisconnection id now st).1 !! n = Some a ->
    1 <= messageCount a <= 10.
Proof.
  intros Hok n a. unfold handleUserDisconnection.
  destruct (mapGet id (activeUsers st)) as [u|]; cbn; [|apply Hok].
  destruct (userActivity st !! username u) as [b|]; [|apply Hok].
  destruct (5 * 60 * 1000 <? now - lastMessage b); [|apply Hok].
  rewrite lookup_delete. case_decide; [done|apply Hok].
Qed.

(** Every rate entry of a state the server reaches has a count between 1
    and 10. *)
Theorem reachable_count_bounds (st : state) :
  reachable st ->
  forall name a, userActivity st !! name = Some a ->
                 1 <= messageCount a <= 10.
Proof.
  induction 1 as [|now e st Hr IH].
  { intros n a.
    change (userActivity initialState) with (∅ : gmap jsstring activity).
    by rewrite lookup_empty. }
  destruct e as [id|id arg|id arg|id t|id|id|id|id| |n k|n k]; cbn.
  - done.
  - unfold onJoin. destruct arg as [raw|]; [|done].
    destruct (isValidUsername _ _); cbn; [|done].
    by destruct (existingUser _ _).
  - unfold onMessage. destruct (mapGet id (activeUsers st)) as [u|]; [|done].
    destruct arg as [raw|]; [|done].
    destruct (isValidMessage _); cbn; [|done].
    pose proof (checkMessageRateLimit_count now (username u)
                  (userActivity st) IH) as Hc.
    by destruct (checkMessageRateLimit _ _ _) as [[] ua].
  - unfold onTyping. by destruct (mapGet id (activeUsers st)).
  - unfold onUserIdle. by destruct (mapGet id (activeUsers st)).
  - unfold onUserActive. by destruct (mapGet id (activeUsers st)).
  - by apply handleUserDisconnection_count.
  - unfold onDisconnect. by apply handleUserDisconnection_count.
  - unfold cleanup. destruct (cleanupUsers _ _ _) as [au acts]. cbn.
    intros name a Hl. rewrite cleanupActivity_lookup in Hl.
    destruct (userActivity st !! name) as [b|] eqn:Hb; [|done].
    case_decide; [done|]. inversion Hl; subst. by apply (IH name).
  - destruct (adminBan_state now n k st)
      as [E|(m & _ & _ & _ & [E|[id E]])]; rewrite E; [done|done|].
    unfold onDisconnect. by apply handleUserDisconnection_count.
  - unfold adminUnban. destruct (bool_decide _); cbn; [|done].
    by destruct n as [[|]|].
Qed.

(** ** More on the sanitizers *)

Lemma trimStart_id (s : jsstring) :
  (forall c s', s = c :: s' -> isWhiteSpace c = false) -> trimStart s = s.
Proof.
  intros Hhead. destruct s as [|c s]; [done|]. cbn.
  by rewrite (Hhead c s).
Qed.

Lemma trim_id (s : jsstring) : trimmed s -> trim s = s.
Proof.
  intros [Hhead Hlast]. unfold trim, trimEnd.
  rewrite (trimStart_id s) by done.
  rewrite trimStart_id; [apply rev_involutive|].
  intros c t Hrev. apply (Hlast c (rev t)).
  rewrite <- (rev_involutive s), Hrev. done.
Qed.

Lemma filter_angle_id (s : jsstring) :
  Forall (fun c => isAngle c = false) s ->
  List.filter (fun c => negb (isAngle c)) s = s.
Proof.
  induction 1 as [|c s Hc Hs IH]; [done|]. cbn. rewrite Hc. cbn.
  by rewrite IH.
Qed.

Lemma isAngle_notLt (c : N) : isAngle c = false -> notLt c = true.
Proof.
  unfold isAngle, notLt. destruct (c =? 60)%N; done.
Qed.

Lemma removeAll_scriptBlock_id (s : jsstring) :
  Forall (fun c => isAngle c = false) s -> removeAll scriptBlock s = s.
Proof.
  intros Hs. unfold removeAll.
  rewrite <- (app_nil_r s) at 1.
  rewrite removeAllFrom_scriptBlock_keep; [cbn; apply app_nil_r|].
  eapply Forall_impl; [exact Hs|]. intros c. apply isAngle_notLt.
Qed.

Lemma sanitize_clean (s : jsstring) :
  Forall (fun c => isAngle c = false) s -> trimmed s ->
  sanitizeMessage s = s /\ sanitizeUsername s = s.
Proof.
  intros Hs Ht. unfold sanitizeMessage, sanitizeUsername.
  rewrite removeAll_scriptBlock_id by done.
  rewrite removeAll_angleBracket, filter_angle_id by done.
  by rewrite trim_id.
Qed.

(** Text without angle brackets and without white space at either end
    goes through both sanitizers unchanged, and only such text does. *)
Theorem sanitize_clean_text_unchanged (s : jsstring) :
  (Forall (fun c => isAngle c = false) s /\ trimmed s)
  <-> sanitizeMessage s = s /\ sanitizeUsername s = s.
Proof.
  split.
  - intros [Hs Ht]. by apply sanitize_clean.
  - intros [Hm _]. rewrite <- Hm. apply sanitizeMessage_shape.
Qed.

(** Both sanitizers are idempotent: sanitizing a sanitized text changes
    nothing. *)
Theorem sanitize_idempotent (s : jsstring) :
  sanitizeMessage (sanitizeMessage s) = sanitizeMessage s
  /\ sanitizeUsername (sanitizeUsername s) = sanitizeUsername s.
Proof.
  destruct (sanitizeMessage_shape s) as [Hm1 Hm2].
  destruct (sanitizeUsername_shape s) as [Hu1 Hu2].
  split.
  - by apply sanitize_clean.
  - by apply sanitize_clean.
Qed.

Lemma length_removeAllFrom (r : regex) (skip : nat) (prev : option N)
    (s : jsstring) :
  (length (removeAllFrom r skip prev s) <= length s)%nat.
Proof.
  revert skip prev. induction s as [|c s IH]; intros skip prev; [done|].
  cbn [removeAllFrom]. destruct skip as [|n].
  - destruct (exec r prev (c :: s)) as [rest|].
    + destruct (length (c :: s) - length rest)%nat.
      * cbn. specialize (IH 0%nat (Some c)). lia.
      * cbn. specialize (IH n (Some c)). lia.
    + cbn. specialize (IH 0%nat (Some c)). lia.
  - cbn. specialize (IH n (Some c)). lia.
Qed.

Lemma length_trimStart (s : jsstring) :
  (length (trimStart s) <= length s)%nat.
Proof.
  induction s as [|c s IH]; [done|]. cbn.
  destruct (isWhiteSpace c); cbn; lia.
Qed.

Lemma length_trim (s : jsstring) : (length (trim s) <= length s)%nat.
Proof.
  unfold trim, trimEnd. rewrite length_rev.
  pose proof (length_trimStart (rev (trimStart s))) as H1.
  rewrite length_rev in H1. pose proof (length_trimStart s). lia.
Qed.

(** Sanitizing never makes a text longer, so a raw message of at most 500
    code units never fails the upper bound of the length check. *)
Theorem sanitize_never_longer (s : jsstring) :
  (length (sanitizeMessage s) <= length s)%nat
  /\ (length (sanitizeUsername s) <= length s)%nat
  /\ ((length s <= 500)%nat -> sanitizeMessage s <> [] ->
      isValidMessage (sanitizeMessage s) = true).
Proof.
  assert (length (sanitizeMessage s) <= length s)%nat as Hm.
  { unfold sanitizeMessage, removeAll.
    pose proof (length_trim
                  (removeAllFrom angleBracket 0 None
                     (removeAllFrom scriptBlock 0 None s))).
    pose proof (length_removeAllFrom angleBracket 0 None
                  (removeAllFrom scriptBlock 0 None s)).
    pose proof (length_removeAllFrom scriptBlock 0 None s). lia. }
  split; [done|]. split.
  - unfold sanitizeUsername, removeAll.
    pose proof (length_trim (removeAllFrom angleBracket 0 None s)).
    pose proof (length_removeAllFrom angleBracket 0 None s). lia.
  - intros Hlen Hne. unfold isValidMessage.
    rewrite bool_decide_eq_false_2 by done.
    destruct (sanitizeMessage s) as [|c t] eqn:Hs; [done|].
    cbn [negb andb]. rewrite (proj2 (Nat.leb_le _ _)) by (cbn; lia).
    rewrite (proj2 (Nat.leb_le _ _)) by lia. done.
Qed.

(** ** What the registry and the buffer hold *)

Lemma In_mapSet {V : Type} (k : sid) (v : V) (m : list (sid * V))
    (e : sid * V) :
  In e (mapSet k v m) -> e = (k, v) \/ In e m.
Proof.
  induction m as [|[k0 v0] m IH]; cbn.
  - intros [<-|[]]. by left.
  - destruct (decide (k0 = k)) as [->|Hne]; cbn.
    + intros [<-|Hin]; [by left|right; by right].
    + intros [<-|Hin]; [right; by left|].
      destruct (IH Hin) as [?|?]; [by left|right; by right].
Qed.

Lemma usersShaped_mapSet (k : sid) (v : user) (au : list (sid * user)) :
  usersShaped au -> nameShape (username v) -> socketId v = k ->
  usersShaped (mapSet k v au).
Proof.
  intros Hau Hv Hk id u Hin. apply In_mapSet in Hin as [[= -> ->]|Hin];
    [done|by apply Hau].
Qed.

Lemma usersShaped_mapDelete (k : sid) (au : list (sid * user)) :
  usersShaped au -> usersShaped (mapDelete k au).
Proof.
  intros Hau id u Hin. apply In_mapDelete in Hin as [Hin _]. by apply Hau.
Qed.

Lemma usersShaped_deletes (ks : list sid) (au : list (sid * user)) :
  usersShaped au -> usersShaped (fold_left (fun a k => mapDelete k a) ks au).
Proof.
  revert au. induction ks as [|k ks IH]; intros au Hau; cbn; [done|].
  by apply IH, usersShaped_mapDelete.
Qed.

Lemma In_addRecentMessage (m x : messageData) (rm : list messageData) :
  In x (addRecentMessage m rm) -> x = m \/ In x rm.
Proof.
  unfold addRecentMessage. cbn zeta.
  assert (In x (rm ++ [m]) -> x = m \/ In x rm) as Happ.
  { rewrite in_app_iff. cbn. intros [?|[?|[]]]; [by right|by left]. }
  destruct (_ <? _)%nat; [|done].
  intros Hin. apply Happ. destruct (rm ++ [m]); [done|by right].
Qed.

Lemma valid_nameShape (banned : gset jsstring) (raw : jsstring) :
  isValidUsername banned (sanitizeUsername raw) = true ->
  nameShape (sanitizeUsername raw).
Proof.
  intros Hv.
  apply (proj1 (accepted_username_shape banned _)) in Hv as (Hlen & Hall & _).
  split; [done|]. split; [done|]. apply sanitizeUsername_shape.
Qed.

Lemma valid_textShape (raw : jsstring) :
  isValidMessage (sanitizeMessage raw) = true ->
  textShape (sanitizeMessage raw).
Proof.
  unfold isValidMessage. rewrite !andb_true_iff, !Nat.leb_le.
  intros [[_ H1] H500]. split; [done|]. apply sanitizeMessage_shape.
Qed.

Lemma handleUserDisconnection_shaped (id : sid) (now : Z) (st : state) :
  usersShaped (activeUsers st) /\ bufferShaped (recentMessages st) ->
  usersShaped (activeUsers (handleUserDisconnection id now st).1)
  /\ bufferShaped (recentMessages (handleUserDisconnection id now st).1).
Proof.
  intros [Hu Hb]. unfold handleUserDisconnection.
  destruct (mapGet id (activeUsers st)); cbn; [|done].
  split; [by apply usersShaped_mapDelete|done].
Qed.

Lemma reachable_shaped (st : state) :
  reachable st ->
  usersShaped (activeUsers st) /\ bufferShaped (recentMessages st).
Proof.
  induction 1 as [|now e st Hr [Hu Hb]]; [by split|].
  destruct e as [id|id arg|id arg|id t|id|id|id|id| |n k|n k]; cbn.
  - done.
  - unfold onJoin. destruct arg as [raw|]; [|done].
    destruct (isValidUsername _ _) eqn:Hv; cbn; [|done].
    destruct (existingUser _ _); cbn; [done|]. split; [|done].
    apply usersShaped_mapSet; [done| |done]. by apply (valid_nameShape _ _ Hv).
  - unfold onMessage.
    destruct (mapGet id (activeUsers st)) as [u|] eqn:Hget; [|done].
    destruct arg as [raw|]; [|done].
    destruct (isValidMessage _) eqn:Hv; cbn; [|done].
    destruct (checkMessageRateLimit _ _ _) as [[] ua]; cbn; [|done].
    apply mapGet_In in Hget. destruct (Hu id u Hget) as [Hname Hsock].
    split.
    + by apply usersShaped_mapSet.
    + intros m Hin. apply In_addRecentMessage in Hin as [->|Hin];
        [|by apply Hb]. cbn. split; [by apply valid_textShape|done].
  - unfold onTyping. by destruct (mapGet id (activeUsers st)).
  - unfold onUserIdle.
    destruct (mapGet id (activeUsers st)) as [u|] eqn:Hget; [|done].
    cbn. split; [|done]. apply mapGet_In in Hget.
    destruct (Hu id u Hget). by apply usersShaped_mapSet.
  - unfold onUserActive.
    destruct (mapGet id (activeUsers st)) as [u|] eqn:Hget; [|done].
    cbn. split; [|done]. apply mapGet_In in Hget.
    destruct (Hu id u Hget). by apply usersShaped_mapSet.
  - by apply handleUserDisconnection_shaped.
  - unfold onDisconnect. by apply handleUserDisconnection_shaped.
  - unfold cleanup.
    pose proof (cleanupUsers_fst now (activeUsers st) (activeUsers st)) as Hc.
    destruct (cleanupUsers now (activeUsers st) (activeUsers st)) as [au acts].
    cbn in *. subst au. split; [by apply usersShaped_deletes|done].
  - destruct (adminBan_state now n k st)
      as [E|(m & _ & _ & _ & [E|[id E]])]; rewrite E; [done|done|].
    unfold onDisconnect. by apply handleUserDisconnection_shaped.
  - unfold adminUnban. destruct (bool_decide _); cbn; [|done].
    by destruct n as [[|]|].
Qed.

(** In every state the server reaches, each registry entry carries a user
    name of 1 to 20 allowed characters with no white space at either end,
    and records under [socketId] the socket it is filed under. *)
Theorem registry_entries_shaped (st : state) (id : sid) (u : user) :
  reachable st -> mapGet id (activeUsers st) = Some u ->
  nameShape (username u) /\ socketId u = id.
Proof.
  intros Hr Hget. apply (proj1 (reachable_shaped st Hr)).
  by apply mapGet_In.
Qed.

(** In every state the server reaches, each buffered message has a text
    of 1 to 500 code units without angle brackets and without white space
    at either end, under a well-shaped user name: nothing unsanitized is
    ever replayed to a joining client. *)
Theorem buffered_messages_sanitized (st : state) (m : messageData) :
  reachable st -> In m (recentMessages st) ->
  textShape (msg_message m) /\ nameShape (msg_username m).
Proof.
  intros Hr Hin. by apply (proj2 (reachable_shaped st Hr)).
Qed.

(** ** Who can change the ban list *)

(** No socket event and no cleanup changes the ban list: it changes only
    through the two admin endpoints, called with the configured key and a
    non-empty user name, and then by exactly that lower-cased name. *)
Theorem only_admin_changes_ban_list (now : Z) (e : event) (st : state) :
  bannedUsers (step now e st).1 = bannedUsers st
  \/ exists n, n <> []
       /\ ((e = AdminBan (Some n) ADMIN_KEY
            /\ bannedUsers (step now e st).1
               = {[ toLowerCase n ]} ∪ bannedUsers st)
           \/ (e = AdminUnban (Some n) ADMIN_KEY
               /\ bannedUsers (step now e st).1
                  = bannedUsers st ∖ {[ toLowerCase n ]})).
Proof.
  destruct e as [id|id arg|id arg|id t|id|id|id|id| |n k|n k]; cbn.
  - by left.
  - left. unfold onJoin. destruct arg as [raw|]; [|done].
    destruct (isValidUsername _ _); cbn; [|done].
    by destruct (existingUser _ _).
  - left. unfold onMessage.
    destruct (mapGet id (activeUsers st)); [|done].
    destruct arg as [raw|]; [|done].
    destruct (isValidMessage _); cbn; [|done].
    by destruct (checkMessageRateLimit _ _ _) as [[] ua].
  - left. unfold onTyping. by destruct (mapGet id (activeUsers st)).
  - left. unfold onUserIdle. by destruct (mapGet id (activeUsers st)).
  - left. unfold onUserActive. by destruct (mapGet id (activeUsers st)).
  - left. unfold onLeave. apply handleUserDisconnection_spec.
  - left. unfold onDisconnect.
    match goal with |- context [handleUserDisconnection id now ?s] =>
      pose proof (handleUserDisconnection_spec id now s) as H end.
    cbn in H. tauto.
  - left. unfold cleanup. by destruct (cleanupUsers _ _ _).
  - unfold adminBan. destruct (bool_decide_reflect (k = ADMIN_KEY)) as [->|];
      cbn [negb]; [|by left].
    destruct n as [[|c n]|]; [by left| |by left].
    right. exists (c :: n). split; [done|]. left. split; [done|].
    destruct (List.find _ _) as [[id u]|]; [|done].
    destruct (decide _); [|done]. unfold onDisconnect.
    match goal with |- context [handleUserDisconnection id now ?s] =>
      pose proof (handleUserDisconnection_spec id now s) as H;
      destruct (handleUserDisconnection id now s) end.
    cbn in *. tauto.
  - unfold adminUnban. destruct (bool_decide_reflect (k = ADMIN_KEY)) as [->|];
      cbn; [|by left].
    destruct n as [[|c n]|]; [by left| |by left].
    right. exists (c :: n). split; [done|]. by right.
Qed.

(** ** Staying in the registry *)

Lemma NoDup_keys_deletes (ks : list sid) (au : list (sid * user)) :
  NoDup (keys au) -> NoDup (keys (fold_left (fun a k => mapDelete k a) ks au)).
Proof.
  revert au. induction ks as [|k ks IH]; intros au Hnd; cbn; [done|].
  by apply IH, NoDup_map_mapDelete.
Qed.

Lemma cleanup_get (now : Z) (st : state) (id : sid) (u : user) :
  NoDup (keys (activeUsers st)) -> mapGet id (activeUsers st) = Some u ->
  mapGet id (activeUsers (cleanup now st).1)
  = if stale now u then None else Some u.
Proof.
  intros Hnd Hget. unfold cleanup.
  pose proof (cleanupUsers_fst now (activeUsers st) (activeUsers st)) as Hdel.
  destruct (cleanupUsers now (activeUsers st) (activeUsers st)) as [au acts].
  cbn in *. rewrite Hdel, mapGet_deletes.
  pose proof (staleKeys_iff now (activeUsers st) id u Hnd
                (mapGet_In _ _ _ Hget)) as Hiff.
  destruct (stale now u).
  - rewrite decide_True; [done|]. by apply Hiff.
  - rewrite decide_False; [done|]. rewrite Hiff. done.
Qed.

(** A 'userActive' signal or an admitted message at time [t] protects the
    connection from every cleanup that runs within 30 minutes of [t]; a
    'userIdle' signal does not refresh [lastSeen]. *)
Theorem activity_keeps_connection_alive
    (st : state) (id : sid) (u : user) (t now : Z) (raw : jsstring) :
  reachable st -> mapGet id (activeUsers st) = Some u ->
  now - t <= 30 * 60 * 1000 ->
  mapGet id (activeUsers (cleanup now (onUserActive id t st).1).1)
  = Some (mkUser (username u) (joinTime u) t (socketId u) (Some active))
  /\ (isValidMessage (sanitizeMessage raw) = true ->
      (checkMessageRateLimit t (username u) (userActivity st)).1 = true ->
      mapGet id (activeUsers (cleanup now (onMessage id t (Some raw) st).1).1)
      = Some (mkUser (username u) (joinTime u) t (socketId u) (status u)))
  /\ mapGet id (activeUsers (onUserIdle id st).1)
     = Some (mkUser (username u) (joinTime u) (lastSeen u) (socketId u)
               (Some idle)).
Proof.
  intros Hr Hget Hnow.
  apply reachable_registryOk in Hr as [Hnd _].
  assert (forall v, lastSeen v = t -> stale now v = false) as Hfresh.
  { intros v Hv. unfold stale, inactiveThreshold. rewrite Hv.
    apply Z.ltb_ge. lia. }
  split; [|split].
  - unfold onUserActive. rewrite Hget. cbn [fst].
    rewrite (cleanup_get now _ id
               (mkUser (username u) (joinTime u) t (socketId u) (Some active))).
    + by rewrite Hfresh.
    + cbn. by apply NoDup_keys_mapSet.
    + cbn. rewrite mapGet_mapSet. by rewrite decide_True.
  - intros Hvalid Hadmit. unfold onMessage. rewrite Hget, Hvalid. cbn [negb].
    destruct (checkMessageRateLimit t (username u) (userActivity st))
      as [ok ua]. cbn in Hadmit. subst ok. cbn [negb fst].
    rewrite (cleanup_get now _ id
               (mkUser (username u) (joinTime u) t (socketId u) (status u))).
    + by rewrite Hfresh.
    + cbn. by apply NoDup_keys_mapSet.
    + cbn. rewrite mapGet_mapSet. by rewrite decide_True.
  - unfold onUserIdle. rewrite Hget. cbn. rewrite mapGet_mapSet.
    by rewrite decide_True.
Qed.

Lemma cleanupUsers_nothing_stale (now : Z) (todo au : list (sid * user)) :
  (forall e, In e todo -> stale now e.2 = false) ->
  cleanupUsers now todo au = (au, []).
Proof.
  induction todo as [|[k u] todo IH]; intros Hall; [done|]. cbn.
  pose proof (Hall (k, u) (or_introl eq_refl)) as Hs.
  unfold stale in Hs. cbn in Hs. rewrite Hs. apply IH.
  intros e He. apply Hall. by right.
Qed.

Lemma cleanupActivity_idempotent (now : Z) (ua : gmap jsstring activity) :
  cleanupActivity now (cleanupActivity now ua) = cleanupActivity now ua.
Proof.
  apply map_eq. intros name. rewrite !cleanupActivity_lookup.
  destruct (ua !! name) as [a|]; [|done].
  destruct (decide (3600000 < now - lastMessage a)) as [Ho|Hn]; [done|].
  by rewrite decide_False.
Qed.

(** A cleanup right after a cleanup, at the same clock reading, finds
    nothing to do: it sends nothing and leaves the state as it is. *)
Theorem cleanup_idempotent (now : Z) (st : state) :
  NoDup (keys (activeUsers st)) ->
  cleanup now (cleanup now st).1 = ((cleanup now st).1, []).
Proof.
  intros Hnd. unfold cleanup at 2 3.
  pose proof (cleanupUsers_registry now (activeUsers st) Hnd) as Hreg.
  destruct (cleanupUsers now (activeUsers st) (activeUsers st)) as [au acts].
  cbn in Hreg. cbn [fst]. unfold cleanup. cbn [activeUsers set_activeUsers
    set_userActivity userActivity].
  rewrite cleanupUsers_nothing_stale.
  - cbn. unfold set_userActivity, set_activeUsers. cbn.
    by rewrite cleanupActivity_idempotent.
  - intros e He. rewrite Hreg in He. apply filter_In in He as [_ He].
    by apply negb_true_iff.
Qed.

(** ** Bans and joins *)

Lemma adminBan_banned (now : Z) (n : jsstring) (st : state) :
  n <> [] ->
  bannedUsers (adminBan now (Some n) ADMIN_KEY st).1
  = {[ toLowerCase n ]} ∪ bannedUsers st.
Proof.
  intros Hn. unfold adminBan. rewrite bool_decide_eq_true_2 by done.
  cbn [negb]. destruct n as [|c n]; [done|].
  destruct (List.find _ _) as [[id u]|]; [|done].
  destruct (decide _); [|done]. unfold onDisconnect.
  match goal with |- context [handleUserDisconnection id now ?s] =>
    pose proof (handleUserDisconnection_spec id now s) as H;
    destruct (handleUserDisconnection id now s) end.
  cbn in *. tauto.
Qed.

(** Once a name is banned, every join whose sanitized name equals it up
    to case is refused with the invalid-username error, whoever asks, and
    changes nothing. *)
Theorem ban_blocks_join (st : state) (n raw : jsstring) (id : sid)
    (banTime now : Z) :
  n <> [] ->
  toLowerCase (sanitizeUsername raw) = toLowerCase n ->
  let st1 := (adminBan banTime (Some n) ADMIN_KEY st).1 in
  onJoin id now (Some raw) st1
  = (st1, [Emit (ToSocket id) (ErrorMsg errInvalidUsername)]).
Proof.
  intros Hn Hsame st1.
  assert (bannedUsers st1 = {[ toLowerCase n ]} ∪ bannedUsers st) as Hb
    by by apply adminBan_banned.
  unfold onJoin, isValidUsername. rewrite Hb, Hsame.
  rewrite (bool_decide_eq_true_2 (toLowerCase n ∈ _)).
  - by rewrite !andb_false_r.
  - apply elem_of_union_l. by apply elem_of_singleton.
Qed.

(** Banning a name that was not banned and then unbanning it gives the
    ban list back; it gives the whole state back when no registry entry
    holds the name up to case (a holder would have been disconnected by
    the ban).  And after an unban the ban list no longer weighs on a join
    that asks for the name: only the length and pattern tests remain. *)
Theorem ban_then_unban (now : Z) (st : state) (n : jsstring) :
  n <> [] ->
  (toLowerCase n ∉ bannedUsers st ->
   bannedUsers
     (adminUnban (Some n) ADMIN_KEY (adminBan now (Some n) ADMIN_KEY st).1).1
   = bannedUsers st)
  /\ (toLowerCase n ∉ bannedUsers st ->
      ~ In (toLowerCase n) (lowerNames (activeUsers st)) ->
      (adminUnban (Some n) ADMIN_KEY
         (adminBan now (Some n) ADMIN_KEY st).1).1 = st)
  /\ (forall name,
        toLowerCase name = toLowerCase n ->
        isValidUsername
          (bannedUsers (adminUnban (Some n) ADMIN_KEY st).1) name
        = isValidUsername ∅ name).
Proof.
  intros Hn.
  assert (forall b : gset jsstring,
             toLowerCase n ∉ b ->
             ({[ toLowerCase n ]} ∪ b) ∖ {[ toLowerCase n ]} = b) as Hset.
  { intros b Hfree. apply set_eq. intros x.
    rewrite elem_of_difference, elem_of_union, elem_of_singleton.
    split; [tauto|]. intros Hx. split; [by right|]. intros ->. done. }
  split; [|split].
  - intros Hfree. unfold adminUnban.
    rewrite bool_decide_eq_true_2 by done. cbn [negb].
    destruct n as [|c n]; [done|]. cbn.
    rewrite adminBan_banned by done. by apply Hset.
  - intros Hfree Hnone. unfold adminBan, adminUnban.
    rewrite bool_decide_eq_true_2 by done. cbn [negb].
    destruct n as [|c n]; [done|].
    rewrite find_no_holder by done. cbn.
    destruct st as [au rm b ua so mc]. unfold set_bannedUsers. cbn in *.
    f_equal. by apply Hset.
  - intros name Hsame. unfold adminUnban.
    rewrite bool_decide_eq_true_2 by done. cbn.
    destruct n as [|c n]; [done|]. cbn. unfold isValidUsername.
    rewrite Hsame. f_equal. f_equal.
    rewrite !bool_decide_eq_false_2; [done| |].
    + apply not_elem_of_empty.
    + rewrite elem_of_difference, elem_of_singleton. tauto.
Qed.

(** ** Leaving does not reset the limiter *)

Lemma lowerName_gone (au : list (sid * user)) (id : sid) (u : user) :
  registryOk au -> mapGet id au = Some u ->
  ~ In (toLowerCase (username u)) (lowerNames (mapDelete id au)).
Proof.
  intros Hok Hget Hin. unfold lowerNames in Hin.
  apply in_map_iff in Hin as [[k v] [Hname Hin]]. cbn in Hname.
  apply In_mapDelete in Hin as [Hin Hne]. cbn in Hne.
  apply Hne. symmetry.
  apply (registryOk_unique au id k u v Hok Hget); [|done].
  apply In_mapGet; [apply Hok|done].
Qed.

(** A user whose entry is full leaves and joins again under the same
    name, on any connection, while the last admitted message is less than
    five minutes old: the rate entry is still there, and a message sent
    within 60 s of the last admitted one is rejected as before. *)
Theorem rejoin_does_not_reset_limit
    (st : state) (id id' : sid) (u : user) (a : activity)
    (now1 now2 now3 : Z) (raw text : jsstring) :
  reachable st ->
  mapGet id (activeUsers st) = Some u ->
  toLowerCase (username u) ∉ bannedUsers st ->
  userActivity st !! username u = Some a ->
  10 <= messageCount a ->
  now1 - lastMessage a <= 5 * 60 * 1000 ->
  now3 - lastMessage a <= 60 * 1000 ->
  sanitizeUsername raw = username u ->
  isValidMessage (sanitizeMessage text) = true ->
  let st1 := (step now1 (Leave id) st).1 in
  let st2 := (step now2 (Join id' (Some raw)) st1).1 in
  mapGet id' (activeUsers st2) = Some (mkUser (username u) now2 now2 id' None)
  /\ userActivity st2 !! username u = Some a
  /\ step now3 (Message id' (Some text)) st2
     = (st2, [Emit (ToSocket id') (ErrorMsg errTooFast)]).
Proof.
  intros Hr Hget Hban Hact Hfull H1 H3 Hraw Htext st1 st2.
  pose proof (reachable_registryOk st Hr) as Hok.
  pose proof (proj1 (reachable_shaped st Hr) id u (mapGet_In _ _ _ Hget))
    as [(Hlen & Hchars & _) _].
  assert (activeUsers st1 = mapDelete id (activeUsers st)
          /\ userActivity st1 = userActivity st
          /\ bannedUsers st1 = bannedUsers st) as (Hau1 & Hua1 & Hb1).
  { subst st1. cbn. unfold onLeave, handleUserDisconnection.
    rewrite Hget, Hact. rewrite (proj2 (Z.ltb_ge _ _)) by lia. done. }
  assert (activeUsers st2
          = mapSet id' (mkUser (username u) now2 now2 id' None)
              (activeUsers st1)
          /\ userActivity st2 = userActivity st) as [Hau2 Hua2].
  { subst st2. cbn. unfold onJoin. rewrite Hraw, Hb1.
    rewrite (proj2 (proj1 (accepted_username_shape (bannedUsers st) _)))
      by done.
    cbn [negb].
    rewrite (proj2 (existingUser_None (username u) (activeUsers st1)))
      by (rewrite Hau1; by apply lowerName_gone).
    done. }
  assert (mapGet id' (activeUsers st2)
          = Some (mkUser (username u) now2 now2 id' None)) as Hget2.
  { rewrite Hau2, mapGet_mapSet. by rewrite decide_True. }
  split; [done|]. split; [by rewrite Hua2|].
  cbn. unfold onMessage. rewrite Hget2, Htext. cbn [negb username].
  unfold checkMessageRateLimit. rewrite Hua2, Hact.
  unfold MESSAGE_WINDOW, MESSAGE_RATE_LIMIT.
  rewrite (proj2 (Z.ltb_ge _ _)) by lia.
  rewrite (proj2 (Z.ltb_ge _ _)) by lia. done.
Qed.

(** ** What a successful join does *)

Lemma length_mapSet {V : Type} (k : sid) (v : V) (m : list (sid * V)) :
  length (mapSet k v m)
  = match mapGet k m with
    | Some _ => length m
    | None => S (length m)
    end.
Proof.
  induction m as [|[k0 v0] m IH]; [done|]. cbn.
  destruct (decide (k0 = k)); [done|]. cbn. rewrite IH.
  by destruct (mapGet k m).
Qed.

(** A join the policy accepts sends userJoined to the room with the size
    of the registry after the join (one more for a new connection, the
    same for a connection that was joined already), then replays the
    whole buffer, oldest first, to the joining socket alone; the other
    registry entries, the buffer, the limiter and the ban list are left
    as they were. *)
Theorem join_success_effects
    (st : state) (id : sid) (now : Z) (raw : jsstring) :
  isValidUsername (bannedUsers st) (sanitizeUsername raw) = true ->
  existingUser (sanitizeUsername raw) (activeUsers st) = None ->
  let r := onJoin id now (Some raw) st in
  r.2 = Emit ToRoom
          (UserJoined (sanitizeUsername raw) (length (activeUsers r.1)) now)
        :: List.map (fun m => Emit (ToSocket id) (MessageOut m))
                    (recentMessages st)
  /\ length (activeUsers r.1)
     = match mapGet id (activeUsers st) with
       | Some _ => length (activeUsers st)
       | None => S (length (activeUsers st))
       end
  /\ (forall id', id' <> id ->
        mapGet id' (activeUsers r.1) = mapGet id' (activeUsers st))
  /\ id ∈ mainChat r.1
  /\ recentMessages r.1 = recentMessages st
  /\ userActivity r.1 = userActivity st
  /\ bannedUsers r.1 = bannedUsers st.
Proof.
  intros Hvalid Hfree r. subst r. unfold onJoin. rewrite Hvalid, Hfree.
  cbn. split; [done|]. split; [apply length_mapSet|].
  split.
  { intros id' Hne. rewrite mapGet_mapSet. by rewrite decide_False. }
  split; [|done]. apply elem_of_union_l. by apply elem_of_singleton.
Qed.

(** ** The room *)

Lemma handleUserDisconnection_room (id : sid) (now : Z) (st : state)
    (mc : gset sid) :
  (forall k, In k (keys (activeUsers st)) -> k <> id -> k ∈ mc) ->
  forall k,
    In k (keys (activeUsers (handleUserDisconnection id now st).1)) -> k ∈ mc.
Proof.
  intros Hin k Hk.
  destruct (handleUserDisconnection_spec id now st) as (_ & _ & Hau & _).
  rewrite Hau in Hk. unfold keys in Hk.
  apply in_map_iff in Hk as [[k' v] [Hfst He]]. cbn in Hfst. subst k'.
  apply In_mapDelete in He as [He Hne]. cbn in Hne.
  apply Hin; [|done]. unfold keys. apply in_map_iff. by exists (k, v).
Qed.

Lemma In_keys_mapSet (k k' : sid) (v : user) (m : list (sid * user)) :
  In k' (List.map fst (mapSet k v m)) -> k' = k \/ In k' (List.map fst m).
Proof.
  intros Hk. apply in_map_iff in Hk as [e [He Hin]].
  apply In_mapSet in Hin as [->|Hin]; [by left|].
  right. apply in_map_iff. by exists e.
Qed.

Lemma reachable_room (st : state) :
  reachable st -> forall k, In k (keys (activeUsers st)) -> k ∈ mainChat st.
Proof.
  induction 1 as [|now e st Hr IH]; [done|].
  destruct e as [id|id arg|id arg|id t|id|id|id|id| |n k0|n k0]; cbn.
  - done.
  - unfold onJoin. destruct arg as [raw|]; [|done].
    destruct (isValidUsername _ _); cbn; [|done].
    destruct (existingUser _ _); cbn; [done|].
    intros k Hk. apply elem_of_union.
    destruct (decide (k = id)) as [->|Hne]; [left; by apply elem_of_singleton|].
    right. apply IH. by apply In_keys_mapSet in Hk as [?|?].
  - unfold onMessage.
    destruct (mapGet id (activeUsers st)) as [u|] eqn:Hget; [|done].
    destruct arg as [raw|]; [|done].
    destruct (isValidMessage _); cbn; [|done].
    destruct (checkMessageRateLimit _ _ _) as [[] ua]; cbn; [|done].
    intros k Hk. apply IH. apply In_keys_mapSet in Hk as [->|?]; [|done].
    by eapply mapGet_Some_keys.
  - unfold onTyping. by destruct (mapGet id (activeUsers st)).
  - unfold onUserIdle.
    destruct (mapGet id (activeUsers st)) as [u|] eqn:Hget; [|done].
    cbn. intros k Hk. apply IH. apply In_keys_mapSet in Hk as [->|?]; [|done].
    by eapply mapGet_Some_keys.
  - unfold onUserActive.
    destruct (mapGet id (activeUsers st)) as [u|] eqn:Hget; [|done].
    cbn. intros k Hk. apply IH. apply In_keys_mapSet in Hk as [->|?]; [|done].
    by eapply mapGet_Some_keys.
  - unfold onLeave. intros k Hk.
    destruct (handleUserDisconnection_spec id now st)
      as (_ & _ & _ & _ & _ & _ & ->).
    revert k Hk. apply handleUserDisconnection_room. intros k Hk _.
    by apply IH.
  - unfold onDisconnect. intros k Hk.
    match goal with |- context [mainChat (handleUserDisconnection id now ?s).1] =>
      destruct (handleUserDisconnection_spec id now s)
        as (_ & _ & _ & _ & _ & _ & ->);
      revert k Hk; apply (handleUserDisconnection_room id now s) end.
    cbn. intros k Hk Hne. apply elem_of_difference. split; [by apply IH|].
    by rewrite elem_of_singleton.
  - unfold cleanup.
    pose proof (cleanupUsers_fst now (activeUsers st) (activeUsers st)) as Hc.
    destruct (cleanupUsers now (activeUsers st) (activeUsers st)) as [au acts].
    cbn in *. subst au. intros k Hk. apply IH.
    rewrite deletes_filter in Hk. unfold keys in *.
    apply in_map_iff in Hk as [e [He Hin]]. apply filter_In in Hin as [Hin _].
    apply in_map_iff. by exists e.
  - destruct (adminBan_state now n k0 st)
      as [E|(m & _ & _ & _ & [E|[id E]])]; rewrite E; [done|done|].
    unfold onDisconnect. intros k Hk.
    match goal with |- context [mainChat (handleUserDisconnection id now ?s).1] =>
      destruct (handleUserDisconnection_spec id now s)
        as (_ & _ & _ & _ & _ & _ & ->);
      revert k Hk; apply (handleUserDisconnection_room id now s) end.
    cbn. intros k Hk Hne. apply elem_of_difference. split; [by apply IH|].
    by rewrite elem_of_singleton.
  - unfold adminUnban. destruct (bool_decide _); cbn; [|done].
    by destruct n as [[|]|].
Qed.

(** In every state the server reaches, a connection with a registry
    entry is a member of the room, so it is among the recipients of every
    broadcast to the room and of every broadcast that excludes another
    socket.  The converse fails by construction: an explicit 'leave' and
    the cleanup remove the registry entry and leave the room as it is. *)
Theorem joined_connections_hear_broadcasts
    (st : state) (id : sid) (u : user) (now : Z) :
  reachable st -> mapGet id (activeUsers st) = Some u ->
  id ∈ recipients st ToRoom
  /\ (forall other, other <> id -> id ∈ recipients st (ToRoomExcept other))
  /\ mainChat (step now (Leave id) st).1 = mainChat st
  /\ mainChat (step now Cleanup st).1 = mainChat st.
Proof.
  intros Hr Hget.
  assert (id ∈ mainChat st) as Hin
    by (apply (reachable_room st Hr); by eapply mapGet_Some_keys).
  split; [done|]. split.
  { intros other Hne. cbn. apply elem_of_difference. split; [done|].
    rewrite elem_of_singleton. congruence. }
  split.
  - cbn. unfold onLeave. apply handleUserDisconnection_spec.
  - cbn. unfold cleanup. by destruct (cleanupUsers _ _ _).
Qed.

(** ** The client's checks against the server's *)

(** What the client sends as a message is non-empty, trimmed and at most
    500 code units long, so the server never finds it too long; when it
    holds no angle bracket the server's sanitizer leaves it as typed, the
    length check passes, and an admitted message is broadcast with
    exactly the text the client sent. *)
Theorem client_message_accepted_as_typed
    (input : jsstring) (hasSocket : bool) (m : jsstring) :
  sendMessage input hasSocket = Some m ->
  hasSocket = true /\ m = trim input
  /\ (1 <= length m <= 500)%nat
  /\ (length (sanitizeMessage m) <= 500)%nat
  /\ (Forall (fun c => isAngle c = false) m ->
      sanitizeMessage m = m
      /\ isValidMessage (sanitizeMessage m) = true
      /\ forall st id now u,
           mapGet id (activeUsers st) = Some u ->
           (checkMessageRateLimit now (username u) (userActivity st)).1
           = true ->
           (onMessage id now (Some m) st).2
           = [Emit ToRoom
                (MessageOut (mkMessageData (username u) m now id))]).
Proof.
  unfold sendMessage. cbn zeta.
  destruct (bool_decide_reflect (trim input = [])) as [|Hne]; [done|].
  destruct hasSocket; [|done]. cbn [negb orb].
  destruct (Nat.ltb_spec 500 (length (trim input))) as [|Hle]; [done|].
  intros [= <-].
  assert (1 <= length (trim input))%nat as H1
    by (destruct (trim input); [done|cbn; lia]).
  split; [done|]. split; [done|]. split; [lia|]. split.
  { pose proof (length_removeAllFrom scriptBlock 0 None (trim input)).
    pose proof (length_removeAllFrom angleBracket 0 None
                  (removeAllFrom scriptBlock 0 None (trim input))).
    pose proof (length_trim
                  (removeAllFrom angleBracket 0 None
                     (removeAllFrom scriptBlock 0 None (trim input)))).
    unfold sanitizeMessage, removeAll. lia. }
  intros Hclean.
  destruct (sanitize_clean (trim input) Hclean (trim_trimmed input))
    as [Hsm _].
  assert (isValidMessage (sanitizeMessage (trim input)) = true) as Hvalid.
  { rewrite Hsm. unfold isValidMessage.
    rewrite bool_decide_eq_false_2 by done. cbn [negb andb].
    rewrite (proj2 (Nat.leb_le _ _)) by lia.
    by rewrite (proj2 (Nat.leb_le _ _)) by lia. }
  split; [done|]. split; [done|].
  intros st id now u Hget Hadmit. unfold onMessage.
  rewrite Hget, Hvalid. cbn [negb].
  destruct (checkMessageRateLimit now (username u) (userActivity st))
    as [ok ua]. cbn in Hadmit. subst ok. cbn. by rewrite Hsm.
Qed.

(** The name the client keeps as its own after [startChat] is trimmed,
    non-empty and at most 20 code units long.  It is the name the server
    would register exactly when it holds no angle bracket; and when all
    its characters are allowed ones, the server's sanitizer leaves it
    unchanged and only the ban list can make the policy refuse it. *)
Theorem client_name_matches_server (input name : jsstring) :
  startChat input = Some name ->
  name = trim input
  /\ (1 <= length name <= 20)%nat
  /\ (sanitizeUsername name = name
      <-> Forall (fun c => isAngle c = false) name)
  /\ (Forall (fun c => isUsernameChar c = true) name ->
      forall banned,
        isValidUsername banned (sanitizeUsername name)
        = negb (bool_decide (toLowerCase name ∈ banned))).
Proof.
  unfold startChat. cbn zeta.
  destruct (bool_decide_reflect (trim input = [])) as [|Hne]; [done|].
  destruct (Nat.ltb_spec 20 (length (trim input))) as [|Hle]; [done|].
  intros [= <-].
  assert (1 <= length (trim input))%nat as H1
    by (destruct (trim input); [done|cbn; lia]).
  split; [done|]. split; [lia|]. split.
  - split.
    + intros <-. apply sanitizeUsername_shape.
    + intros Hclean. by apply sanitize_clean, trim_trimmed.
  - intros Hchars banned.
    assert (Forall (fun c => isAngle c = false) (trim input)) as Hclean.
    { eapply Forall_impl; [exact Hchars|]. intros c. cbn.
      unfold isUsernameChar, isAngle, isLowerAZ, isUpperAZ, isDigit,
        isWhiteSpace, inRange.
      destruct (N.eqb_spec c 60) as [->|]; [done|].
      destruct (N.eqb_spec c 62) as [->|]; done. }
    destruct (sanitize_clean (trim input) Hclean (trim_trimmed input))
      as [_ ->].
    unfold isValidUsername. rewrite test_usernamePattern.
    rewrite bool_decide_eq_false_2 by done.
    rewrite (proj2 (Nat.leb_le _ _)) by lia.
    rewrite (proj2 (Nat.leb_le _ _)) by lia.
    rewrite (proj2 (forallb_forall _ _));
      [done|by apply List.Forall_forall].
Qed.

(** ** The rate entry of a leaving user *)

(** When a joined connection leaves or disconnects, the rate entry of its
    user name is dropped exactly when its last admitted message is more
    than five minutes old; every other entry, and the entry of a user who
    wrote within the last five minutes, stays as it is. *)
Theorem leaving_drops_only_stale_rate_entry
    (st : state) (id : sid) (u : user) (now : Z) (e : event)
    (name : jsstring) :
  closes id e -> mapGet id (activeUsers st) = Some u ->
  userActivity (step now e st).1 !! name
  = match userActivity st !! name with
    | Some a =>
        if decide (name = username u /\ 5 * 60 * 1000 < now - lastMessage a)
        then None else Some a
    | None => None
    end.
Proof.
  intros Hclose Hget.
  assert (userActivity (handleUserDisconnection id now st).1 !! name
          = match userActivity st !! name with
            | Some a =>
                if decide (name = username u
                           /\ 5 * 60 * 1000 < now - lastMessage a)
                then None else Some a
            | None => None
            end) as Hmain.
  { unfold handleUserDisconnection. rewrite Hget. cbn.
    destruct (userActivity st !! username u) as [b|] eqn:Hb.
    - destruct (Z.ltb_spec (5 * 60 * 1000) (now - lastMessage b)) as [Ho|Hn].
      + rewrite lookup_delete. case_decide as Heq.
        * subst name. rewrite Hb. by rewrite decide_True.
        * destruct (userActivity st !! name); [|done].
          rewrite decide_False; [done|]. intros [? _]. congruence.
      + destruct (userActivity st !! name) as [a|] eqn:Ha; [|done].
        rewrite decide_False; [done|]. intros [-> Hlt].
        rewrite Hb in Ha. inversion Ha; subst. lia.
    - destruct (userActivity st !! name) as [a|] eqn:Ha; [|done].
      rewrite decide_False; [done|]. intros [-> _]. congruence. }
  destruct Hclose as [->| ->]; cbn; [exact Hmain|].
  unfold onDisconnect, handleUserDisconnection in *. cbn in *.
  rewrite Hget in *. exact Hmain.
Qed.

End Properties.

(** * Concrete runs *)

(** C1 fails on the code, whose comments promise 10 messages per minute
    and a counter reset once the window has passed.  Ten messages 7 s
    apart, the first at time 0, are all admitted.  At 64 s the window
    that opened at 0 is more than 60 s old, so a window anchored at its
    start is reset and the message admitted; the sender never had ten
    messages in any minute.  The server rejects the message, because
    every admitted message moved the timestamp (it is 63000 by then, not
    0). *)
Lemma rate_limit_not_anchored_at_window_start :
  let times := [0; 7000; 14000; 21000; 28000; 35000; 42000; 49000; 56000;
                63000; 64000] in
  (limiterRun checkMessageRateLimit times (js "u") ∅).1
    = [true; true; true; true; true; true; true; true; true; true; false]
  /\ (limiterRun fixedWindowLimit times (js "u") ∅).1
    = [true; true; true; true; true; true; true; true; true; true; true]
  /\ (checkMessageRateLimit 7000 (js "u") {[ js "u" := mkActivity 1 0 ]}).2
       !! js "u" = Some (mkActivity 2 7000)
  /\ (limiterRun checkMessageRateLimit times (js "u") ∅).2 !! js "u"
    = Some (mkActivity 10 63000).
Proof. vm_compute. done. Qed.

(** The same at one message every 50 s: the eleventh is rejected. *)
Lemma slow_sender_rejected :
  (limiterRun checkMessageRateLimit
     [0; 50000; 100000; 150000; 200000; 250000; 300000; 350000; 400000;
      450000; 500000] (js "u") ∅).1
  = [true; true; true; true; true; true; true; true; true; true; false].
Proof. vm_compute. done. Qed.

Ltac by_decide :=
  match goal with
  | |- ?P => apply (bool_decide_unpack P); vm_compute; exact I
  end.

Lemma twoJoined_reachable : reachable (host := asciiHost) twoJoined.
Proof. apply reachable_run, reachable_init. Qed.

(** The limiter at an entry that is full: the message is rejected and
    nothing changes. *)
Lemma rate_limit_witness :
  let r := checkMessageRateLimit 5 (js "u") {[ js "u" := mkActivity 10 0 ]} in
  (forall other, other <> js "u" ->
     r.2 !! other = ({[ js "u" := mkActivity 10 0 ]} : gmap _ _) !! other)
  /\ r.1 = false /\ r.2 = {[ js "u" := mkActivity 10 0 ]}.
Proof.
  exact (rate_limit_window_of_last_admitted 5 (js "u")
           {[ js "u" := mkActivity 10 0 ]}).
Defined.

(** ALICE is refused while Alice is joined. *)
Lemma usernames_unique_witness :
  let st1 := (onJoin (host := asciiHost) "a" 1 (Some (js "Alice"))
                initialState).1 in
  ((exists u1, mapGet "a" (activeUsers st1) = Some u1
               /\ username u1 = sanitizeUsername (js "Alice"))
   /\ exists msg,
       (msg = errInvalidUsername \/ msg = errUsernameTaken)
       /\ onJoin (host := asciiHost) "b" 2 (Some (js "ALICE")) st1
          = (st1, [Emit (ToSocket "b") (ErrorMsg msg)]))
  /\ (forall u1 u2,
        mapGet "a" (activeUsers twoJoined) = Some u1 ->
        mapGet "a" (activeUsers twoJoined) = Some u2 ->
        asciiLower (username u1) = asciiLower (username u2) -> "a" = "a").
Proof.
  split.
  - apply (proj2 (usernames_unique_up_to_case (host := asciiHost)));
      vm_compute; reflexivity.
  - apply (proj1 (usernames_unique_up_to_case (host := asciiHost))).
    apply twoJoined_reachable.
Defined.

(** C3 (as stated) fails.  A connection joins as alice and then sends a
    second join asking for bob: the policy accepts it, and the registry
    entry of that same connection now carries bob. *)
Lemma rejoin_rebinds_username :
  let st1 := (run (host := asciiHost)
                [(1, Connection "s"); (2, Join "s" (Some (js "alice")))]
                initialState).1 in
  let st2 := (step (host := asciiHost) 3 (Join "s" (Some (js "bob"))) st1).1 in
  username <$> mapGet "s" (activeUsers st1) = Some (js "alice")
  /\ username <$> mapGet "s" (activeUsers st2) = Some (js "bob")
  /\ js "alice" <> js "bob".
Proof. vm_compute. repeat split; discriminate. Qed.

(** Alice's connection joins again: as Carol the entry is replaced, as
    bob (taken, up to case, by Bob) nothing changes. *)
Lemma rejoin_witness :
  mapGet "a" (activeUsers twoJoined)
  = Some (mkUser (js "Alice") 0 0 "a" None)
  /\ mapGet "a"
       (activeUsers
          (step (host := asciiHost) 7 (Join "a" (Some (js "Carol")))
             twoJoined).1)
     = Some (mkUser (js "Carol") 7 7 "a" None)
  /\ (step (host := asciiHost) 7 (Join "a" (Some (js "bob"))) twoJoined).1
     = twoJoined.
Proof.
  assert (mapGet "a" (activeUsers twoJoined)
          = Some (mkUser (js "Alice") 0 0 "a" None)) as Hget
    by (vm_compute; reflexivity).
  split; [exact Hget|]. split.
  - exact (proj2 (username_changes_only_by_accepted_rejoin (host := asciiHost)
                    7 (Join "a" (Some (js "Carol"))) twoJoined "a" _ Hget)
             (js "Carol") eq_refl).
  - exact (proj2 (username_changes_only_by_accepted_rejoin (host := asciiHost)
                    7 (Join "a" (Some (js "bob"))) twoJoined "a" _ Hget)
             (js "bob") eq_refl).
Defined.

(** C4 fails on the code: a tab between two letters passes the policy,
    although the tab is neither a letter, a digit, an underscore, a hyphen
    nor the space the server's own error message speaks of. *)
Lemma username_with_tab_accepted :
  let raw := [97; 9; 98]%N in
  sanitizeUsername raw = raw
  /\ isValidUsername (host := asciiHost) ∅ (sanitizeUsername raw) = true
  /\ forallb isSpecUsernameChar (sanitizeUsername raw) = false
  /\ (onJoin (host := asciiHost) "a" 1 (Some raw) initialState).2
     = [Emit ToRoom (UserJoined raw 1 1)].
Proof. vm_compute. done. Qed.

(** 55 numbered messages into the empty buffer. *)
Lemma recent_buffer_witness :
  let ms := List.map (fun i => mkMessageData (js "u") (js "m") (Z.of_nat i) "a")
                     (seq 0 55) in
  length (insertAll ms []) = 50%nat /\ insertAll ms [] = drop 5 ms.
Proof.
  apply (proj1 (proj2 (recent_buffer_bounded_fifo (host := asciiHost)))).
  reflexivity.
Defined.


(** Bob leaves, then his transport closes. *)
Lemma leave_disconnect_witness :
  let r1 := step (host := asciiHost) 5 (Leave "b") twoJoined in
  let r2 := step (host := asciiHost) 6 (Disconnect "b") r1.1 in
  r1.2 = [Emit (ToRoomExcept "b") (UserLeft (js "Bob") 1 5)]
  /\ r2.2 = [].
Proof.
  pose proof (leave_disconnect_idempotent (host := asciiHost) "b" 5 6
                (Leave "b") (Disconnect "b") twoJoined
                (or_introl eq_refl) (or_intror eq_refl)) as H.
  cbn zeta in H. destruct H as (_ & H1 & _ & _ & _ & H2 & _).
  split; [exact H1|exact H2].
Defined.

(** A cleanup at 1900000: Alice, last seen at 0, goes; Bob, last seen at
    1000000, stays. *)
Lemma cleanup_witness :
  let r := cleanup 1900000 twoJoined in
  List.map fst (activeUsers r.1) = ["b"]
  /\ r.2 = [Emit ToRoom (UserLeft (js "Alice") 1 1900000)].
Proof.
  assert (NoDup (keys (activeUsers twoJoined))) as Hnd.
  { by_decide. }
  pose proof (cleanup_removes_exactly_stale 1900000 twoJoined Hnd) as H.
  cbn zeta in H. destruct H as (H1 & _ & H2 & _).
  split; [rewrite H1; reflexivity|rewrite H2; reflexivity].
Defined.

(** Banning ALICE at time 7 with the right key while Alice is joined,
    with a wrong key, and an unban without a user name. *)
Lemma admin_ban_witness :
  let r := adminBan (host := asciiHost) 7 (Some (js "ALICE")) (Some (js "k"))
             twoJoined in
  bannedUsers r.1 = {[ js "alice" ]} ∪ bannedUsers twoJoined
  /\ r.2 = [Emit (ToSocket "a") (ErrorMsg errBanned); ForceDisconnect "a";
            Emit (ToRoomExcept "a") (UserLeft (js "Alice") 1 7);
            Respond (Success200 (js "ALICE"))]
  /\ keys (activeUsers r.1) = ["b"]
  /\ adminBan (host := asciiHost) 7 (Some (js "ALICE")) (Some (js "x"))
       twoJoined
     = (twoJoined, [Respond Unauthorized401])
  /\ adminUnban (host := asciiHost) None (Some (js "k")) twoJoined
     = (twoJoined, [Respond UsernameRequired400]).
Proof.
  pose proof (admin_ban_unban (host := asciiHost) 7 (Some (js "ALICE"))
                (Some (js "k")) twoJoined) as (_ & _ & H).
  specialize (H (js "ALICE") eq_refl eq_refl ltac:(discriminate)).
  cbn zeta in H. destruct H as (Hb & _ & Hkick & _).
  specialize (Hkick "a" (mkUser (js "Alice") 0 0 "a" None)
                twoJoined_reachable eq_refl eq_refl ltac:(by_decide)).
  destruct Hkick as (Hacts & Hau & _).
  split; [exact Hb|]. split; [exact Hacts|]. split; [by rewrite Hau|].
  split.
  - apply (proj1 (admin_ban_unban (host := asciiHost) 7 (Some (js "ALICE"))
                    (Some (js "x")) twoJoined)). discriminate.
  - apply (proj1 (proj2 (admin_ban_unban (host := asciiHost) 7 None
                           (Some (js "k")) twoJoined)));
      reflexivity.
Defined.

(** Alice is evicted by the cleanup at 1900000 and then sends a message. *)
Lemma evicted_connection_witness :
  let r := cleanup 1900000 twoJoined in
  mapGet "a" (activeUsers r.1) = None
  /\ "a" ∈ sockets r.1
  /\ onMessage "a" 1900001 (Some (js "hi")) r.1
     = (r.1, [Emit (ToSocket "a") (ErrorMsg errMustJoin)]).
Proof.
  pose proof (evicted_connection_must_rejoin
                1900000 1900001 twoJoined "a"
                (mkUser (js "Alice") 0 0 "a" None) (Some (js "hi"))
                eq_refl eq_refl) as H.
  cbn zeta in H. destruct H as (H1 & H2 & _ & _ & H3 & _).
  split; [exact H1|]. split; [|exact H3].
  rewrite H2. by_decide.
Defined.

Lemma aliceFull_reachable : reachable (host := asciiHost) aliceFull.
Proof. apply reachable_run, twoJoined_reachable. Qed.

(** Twelve messages in the first 11 s: ten pass. *)
Lemma fresh_user_first_ten_witness :
  (limiterRun checkMessageRateLimit
     [0; 1000; 2000; 3000; 4000; 5000; 6000; 7000; 8000; 9000; 10000; 11000]
     (js "u") ∅).1
  = [true; true; true; true; true; true; true; true; true; true; false; false].
Proof.
  apply (fresh_user_first_ten_admitted (js "u") 0
           [1000; 2000; 3000; 4000; 5000; 6000; 7000; 8000; 9000; 10000; 11000]
           ∅).
  - reflexivity.
  - repeat constructor; lia.
Defined.

(** Two attempts against a full entry, then one after the minute. *)
Lemma rejections_witness :
  limiterRun checkMessageRateLimit [1000; 60000] (js "u")
    {[ js "u" := mkActivity 10 0 ]}
  = ([false; false], {[ js "u" := mkActivity 10 0 ]})
  /\ checkMessageRateLimit 60001 (js "u") {[ js "u" := mkActivity 10 0 ]}
     = (true, <[ js "u" := mkActivity 1 60001 ]> {[ js "u" := mkActivity 10 0 ]}).
Proof.
  pose proof (rejections_do_not_prolong_block (js "u") [1000; 60000]
                {[ js "u" := mkActivity 10 0 ]} (mkActivity 10 0)
                eq_refl ltac:(cbn; lia) ltac:(repeat constructor; cbn; lia))
    as [H1 H2].
  split; [exact H1|]. apply H2. cbn. lia.
Defined.

(** Alice's entry after her ten messages. *)
Lemma count_bounds_witness :
  userActivity aliceFull !! js "Alice" = Some (mkActivity 10 1000010)
  /\ 1 <= 10 <= 10.
Proof.
  assert (userActivity aliceFull !! js "Alice" = Some (mkActivity 10 1000010))
    as Hl by (vm_compute; reflexivity).
  split; [exact Hl|].
  exact (reachable_count_bounds (host := asciiHost) aliceFull
           aliceFull_reachable (js "Alice") _ Hl).
Defined.

Lemma sanitize_clean_witness :
  sanitizeMessage (js "hello world") = js "hello world"
  /\ sanitizeUsername (js "hello world") = js "hello world".
Proof.
  apply (proj1 (sanitize_clean_text_unchanged (js "hello world"))).
  split; [repeat constructor|].
  split; intros c s' E.
  - by inversion E.
  - change (js "hello world") with (js "hello worl" ++ [100%N]) in E.
    apply app_inj_tail in E as [_ <-]. reflexivity.
Defined.

Lemma sanitize_never_longer_witness :
  isValidMessage (sanitizeMessage (js " <b>hi</b> ")) = true.
Proof.
  apply (proj2 (proj2 (sanitize_never_longer (js " <b>hi</b> ")))).
  - cbn. lia.
  - vm_compute. discriminate.
Defined.

Lemma registry_entries_witness :
  nameShape (js "Alice") /\ "a" = "a".
Proof.
  exact (registry_entries_shaped (host := asciiHost) twoJoined "a"
           (mkUser (js "Alice") 0 0 "a" None) twoJoined_reachable eq_refl).
Defined.

Lemma buffered_messages_witness :
  textShape (js "hi") /\ nameShape (js "Alice").
Proof.
  apply (buffered_messages_sanitized (host := asciiHost) aliceFull
           (mkMessageData (js "Alice") (js "hi") 1000001 "a")
           aliceFull_reachable).
  vm_compute. by left.
Defined.

(** Bob reports activity at 2000000 and survives the cleanup at 3000000,
    which evicts Alice. *)
Lemma keep_alive_witness :
  mapGet "b"
    (activeUsers (cleanup 3000000 (onUserActive "b" 2000000 twoJoined).1).1)
  = Some (mkUser (js "Bob") 1000000 2000000 "b" (Some active)).
Proof.
  apply (proj1 (activity_keeps_connection_alive (host := asciiHost)
                  twoJoined "b" (mkUser (js "Bob") 1000000 1000000 "b" None)
                  2000000 3000000 (js "hi") twoJoined_reachable eq_refl
                  ltac:(lia))).
Defined.

Lemma cleanup_idempotent_witness :
  cleanup 1900000 (cleanup 1900000 twoJoined).1
  = ((cleanup 1900000 twoJoined).1, []).
Proof.
  apply cleanup_idempotent. by_decide.
Defined.

(** [asciiHost]'s key is k: after banning BOB, a join as bob is refused. *)
Lemma ban_blocks_join_witness :
  let st1 := (adminBan (host := asciiHost) 4 (Some (js "BOB"))
                (Some (js "k")) initialState).1 in
  onJoin (host := asciiHost) "c" 5 (Some (js " bob ")) st1
  = (st1, [Emit (ToSocket "c") (ErrorMsg errInvalidUsername)]).
Proof.
  apply (ban_blocks_join (host := asciiHost) initialState (js "BOB")
           (js " bob ") "c" 4 5); [discriminate|reflexivity].
Defined.

(** On [twoJoined]: banning and unbanning BOB gives the ban list back
    (Bob himself is disconnected); banning and unbanning Carol, a name
    nobody holds, gives the state back. *)
Lemma ban_then_unban_witness :
  bannedUsers
    (adminUnban (host := asciiHost) (Some (js "BOB")) (Some (js "k"))
       (adminBan (host := asciiHost) 7 (Some (js "BOB")) (Some (js "k"))
          twoJoined).1).1
  = bannedUsers twoJoined
  /\ (adminUnban (host := asciiHost) (Some (js "Carol")) (Some (js "k"))
        (adminBan (host := asciiHost) 7 (Some (js "Carol")) (Some (js "k"))
           twoJoined).1).1 = twoJoined.
Proof.
  split.
  - apply (proj1 (ban_then_unban (host := asciiHost) 7 twoJoined (js "BOB")
                    ltac:(discriminate))).
    by_decide.
  - apply (proj1 (proj2 (ban_then_unban (host := asciiHost) 7 twoJoined
                           (js "Carol") ltac:(discriminate)))).
    + by_decide.
    + vm_compute. intros [H|[H|[]]]; discriminate.
Defined.

(** Alice, at ten messages, leaves at 1000020, joins again on socket c at
    1000030 and writes at 1000040. *)
Lemma rejoin_limit_witness :
  let st1 := (step (host := asciiHost) 1000020 (Leave "a") aliceFull).1 in
  let st2 := (step (host := asciiHost) 1000030 (Join "c" (Some (js "Alice")))
                st1).1 in
  step (host := asciiHost) 1000040 (Message "c" (Some (js "again"))) st2
  = (st2, [Emit (ToSocket "c") (ErrorMsg errTooFast)]).
Proof.
  apply (rejoin_does_not_reset_limit (host := asciiHost) aliceFull "a" "c"
           (mkUser (js "Alice") 0 1000010 "a" None)
           (mkActivity 10 1000010) 1000020 1000030 1000040
           (js "Alice") (js "again") aliceFull_reachable).
  - vm_compute; reflexivity.
  - by_decide.
  - vm_compute; reflexivity.
  - cbn; lia.
  - cbn; lia.
  - cbn; lia.
  - vm_compute; reflexivity.
  - vm_compute; reflexivity.
Defined.

(** Carol joins on a third socket while Alice's messages are buffered. *)
Lemma join_success_witness :
  let r := onJoin (host := asciiHost) "c" 2000000 (Some (js "Carol"))
             aliceFull in
  length (activeUsers r.1) = 3%nat /\ length r.2 = 11%nat.
Proof.
  pose proof (join_success_effects (host := asciiHost) aliceFull "c" 2000000
                (js "Carol") ltac:(vm_compute; reflexivity)
                ltac:(vm_compute; reflexivity)) as H.
  cbn zeta in H. destruct H as (H1 & H2 & _).
  split; [rewrite H2; reflexivity|rewrite H1; reflexivity].
Defined.

Lemma room_witness :
  "a" ∈ recipients twoJoined ToRoom
  /\ "a" ∈ recipients twoJoined (ToRoomExcept "b").
Proof.
  pose proof (joined_connections_hear_broadcasts (host := asciiHost)
                twoJoined "a" (mkUser (js "Alice") 0 0 "a" None) 5
                twoJoined_reachable eq_refl) as (H1 & H2 & _).
  split; [exact H1|]. apply H2. discriminate.
Defined.

Lemma client_message_witness :
  sanitizeMessage (js "hello there") = js "hello there"
  /\ isValidMessage (sanitizeMessage (js "hello there")) = true.
Proof.
  pose proof (client_message_accepted_as_typed (js "  hello there ") true
                (js "hello there") ltac:(vm_compute; reflexivity))
    as (_ & _ & _ & _ & H).
  specialize (H ltac:(repeat constructor)).
  destruct H as (H1 & H2 & _). split; [exact H1|exact H2].
Defined.

Lemma client_name_witness :
  sanitizeUsername (js "Alice") = js "Alice"
  /\ isValidUsername (host := asciiHost) ∅ (sanitizeUsername (js "Alice"))
     = true.
Proof.
  pose proof (client_name_matches_server (host := asciiHost) (js " Alice ")
                (js "Alice") ltac:(vm_compute; reflexivity))
    as (_ & _ & H1 & H2).
  split.
  - apply H1. repeat constructor.
  - rewrite (H2 ltac:(repeat constructor) ∅). reflexivity.
Defined.

(** Alice leaves six minutes after her last message: her entry goes. *)
Lemma leaving_rate_entry_witness :
  userActivity (step (host := asciiHost) 1360011 (Leave "a") aliceFull).1
    !! js "Alice" = None.
Proof.
  exact (leaving_drops_only_stale_rate_entry (host := asciiHost) aliceFull "a"
           (mkUser (js "Alice") 0 1000010 "a" None) 1360011 (Leave "a")
           (js "Alice") (or_introl eq_refl) eq_refl).
Defined.
